(** * Cressi Goa dive-log parser: a shallow embedding and its properties

    The development follows [src/cressi_goa_parser.c]: the layout table,
    [cressi_goa_init], [cressi_goa_parser_create],
    [cressi_goa_parser_get_datetime], [cressi_goa_parser_get_field] and
    [cressi_goa_parser_samples_foreach].

    Conventions.
    - An [unsigned int] is a [Z] in [0, 2^32); every arithmetic operation
      the C code performs on that type is written with the wrapping
      operations of module [UInt].
    - A [double] is a primitive binary64 float.
    - A read through a pointer that falls outside the buffer has no
      defined behaviour in C; it is the outcome [Undefined].
    - The [while] loop of the sample walk runs on fuel; [OutOfFuel] is the
      outcome of a run that was not given enough. *)

From Stdlib Require Import ZArith List Bool Lia.
From Stdlib Require Import Strings.Byte.
From Stdlib Require Import PrimFloat Uint63.
Import ListNotations.
Local Open Scope Z_scope.

(** * The parser *)

(** ** Machine integers *)

Module UInt.

Definition modulus : Z := 2 ^ 32.
Definition max : Z := 0xFFFFFFFF.

Definition wrap (z : Z) : Z := z mod modulus.

Definition add (a b : Z) : Z := wrap (a + b).
Definition sub (a b : Z) : Z := wrap (a - b).
Definition mul (a b : Z) : Z := wrap (a * b).

End UInt.

(** ** Outcomes of a C computation *)

Inductive outcome (A : Type) : Type :=
| Returns (a : A)
| Undefined
| OutOfFuel.

Arguments Returns {A} a.
Arguments Undefined {A}.
Arguments OutOfFuel {A}.

Definition bind {A B : Type} (m : outcome A) (k : A -> outcome B) : outcome B :=
  match m with
  | Returns a => k a
  | Undefined => Undefined
  | OutOfFuel => OutOfFuel
  end.

Notation "x <- m ;; k" := (bind m (fun x => k))
  (at level 61, m at next level, right associativity).

(** ** Buffers and pointers into them *)

Definition byte_val (b : byte) : Z := Z.of_N (Byte.to_N b).

(** A pointer is a buffer together with a position in it;
    [const unsigned char *p = data + n] is [ptr_add data n]. *)
Record pointer : Type := mkptr { block : list byte; position : Z }.

Definition ptr_add (p : pointer) (n : Z) : pointer :=
  mkptr (block p) (position p + n).

(** [p[i]] *)
Definition deref (p : pointer) (i : Z) : outcome Z :=
  let k := position p + i in
  if k <? 0 then Undefined
  else match nth_error (block p) (Z.to_nat k) with
       | Some b => Returns (byte_val b)
       | None => Undefined
       end.

(** Modelled from the spec: [array_uint16_le] is declared in [array.h],
    outside the parser's source file; the spec calls it the read of "a
    little-endian 16-bit integer": low byte first, high byte second. *)
Definition array_uint16_le (p : pointer) : outcome Z :=
  lo <- deref p 0 ;;
  hi <- deref p 1 ;;
  Returns (lo + Z.shiftl hi 8).

(** Conversion of an unsigned integer to [double]. *)
Definition to_double (z : Z) : float := PrimFloat.of_uint63 (Uint63.of_Z z).

(** ** Status codes and diagnostics *)

Inductive dc_status_t : Type :=
| DC_STATUS_SUCCESS
| DC_STATUS_UNSUPPORTED
| DC_STATUS_INVALIDARGS
| DC_STATUS_NOMEMORY
| DC_STATUS_DATAFORMAT.

(** The [ERROR (context, ...)] calls, one constructor per format string,
    carrying the values printed. *)
Inductive diagnostic : Type :=
| Invalid_dive_length (size : Z)
| Invalid_id_or_logbook_length (id_len logbook_len : Z)
| Invalid_dive_mode (divemode : Z)
| Failed_to_allocate_memory.

(** ** Constants *)

Definition SZ_HEADER : Z := 23.

Definition DEPTH : Z := 0.
Definition DEPTH2 : Z := 1.
Definition TIME : Z := 2.
Definition TEMPERATURE : Z := 3.

Definition SCUBA : Z := 0.
Definition NITROX : Z := 1.
Definition FREEDIVE : Z := 2.
Definition GAUGE : Z := 3.

Definition NGASMIXES : Z := 2.

Definition UNDEFINED : Z := 0xFFFFFFFF.

(** ** The layout table *)

Module Layout.

Record cressi_goa_layout_t : Type := mk {
  headersize : Z;
  datetime : Z;
  divetime : Z;
  gasmix : Z;
  atmospheric : Z;
  maxdepth : Z;
  avgdepth : Z;
  temperature : Z
}.

End Layout.

Definition layouts : list Layout.cressi_goa_layout_t :=
  [ (* SCUBA *)
    Layout.mk 92 12 20 26 30 73 75 77;
    (* NITROX *)
    Layout.mk 92 12 20 26 30 73 75 77;
    (* FREEDIVE *)
    Layout.mk 38 12 20 UNDEFINED UNDEFINED 23 UNDEFINED 25;
    (* GAUGE *)
    Layout.mk 40 12 20 UNDEFINED 22 24 26 28 ].

(** [C_ARRAY_SIZE (layouts)] *)
Definition layouts_size : Z := Z.of_nat (length layouts).

(** ** The parser object *)

(** [dc_parser_t]: the buffer handed to [dc_parser_allocate]; its [size]
    field is the length of [data]. *)
Record dc_parser_t : Type := mk_base { data : list byte }.

Record cressi_goa_parser_t : Type := mk_parser {
  base : dc_parser_t;
  layout : Layout.cressi_goa_layout_t;
  headersize : Z;
  version : Z;
  divemode : Z
}.

(** [abstract->size], a [size_t]. *)
Definition base_size (abstract : dc_parser_t) : Z := Z.of_nat (length (data abstract)).

(** [abstract->data] *)
Definition base_data (abstract : dc_parser_t) : pointer := mkptr (data abstract) 0.

(** ** [cressi_goa_init] and [cressi_goa_parser_create] *)

Definition cressi_goa_init (parser : cressi_goa_parser_t)
  : outcome (dc_status_t * list diagnostic * cressi_goa_parser_t) :=
  let abstract := base parser in
  let data := base_data abstract in
  let size := UInt.wrap (base_size abstract) in
  if size <? 2 then
    Returns (DC_STATUS_DATAFORMAT, [Invalid_dive_length size], parser)
  else
    id_len <- deref data 0 ;;
    logbook_len <- deref data 1 ;;
    if (id_len <? 9) || (logbook_len <? SZ_HEADER) then
      Returns (DC_STATUS_DATAFORMAT, [Invalid_id_or_logbook_length id_len logbook_len], parser)
    else if size <? UInt.add (UInt.add 2 id_len) logbook_len then
      Returns (DC_STATUS_DATAFORMAT, [Invalid_dive_length size], parser)
    else
      let logbook := ptr_add (ptr_add data 2) id_len in
      (* Get the dive mode. *)
      divemode <- deref logbook 2 ;;
      if layouts_size <=? divemode then
        Returns (DC_STATUS_DATAFORMAT, [Invalid_dive_mode divemode], parser)
      else
        (* Get the layout. *)
        match nth_error layouts (Z.to_nat divemode) with
        | None => Undefined
        | Some layout =>
            let headersize := UInt.add (UInt.add 2 id_len) logbook_len in
            if size <? UInt.add headersize (Layout.headersize layout) then
              Returns (DC_STATUS_DATAFORMAT, [Invalid_dive_length size], parser)
            else
              Returns (DC_STATUS_SUCCESS, [],
                       mk_parser (base parser) layout headersize (version parser) divemode)
        end.

(** Modelled from the spec: [dc_parser_allocate] is declared in
    [parser-private.h]; it either fails ("AllocationFailure (resource
    exhaustion during instance construction)") or hands back an object
    that owns the buffer.  [memory] is what the allocator has to offer:
    nothing, or a block whose derived fields hold whatever they held. *)
Definition dc_parser_allocate (memory : option cressi_goa_parser_t) (data : list byte)
  : option cressi_goa_parser_t :=
  match memory with
  | None => None
  | Some blank =>
      Some (mk_parser (mk_base data) (layout blank) (headersize blank) (version blank) (divemode blank))
  end.

(** [cressi_goa_parser_create]; [out] tells whether the [out] pointer is
    non-null, and the last component of the result is what was stored
    through it ([None]: nothing was stored). *)
Definition cressi_goa_parser_create (out : bool) (memory : option cressi_goa_parser_t)
    (data : list byte)
  : outcome (dc_status_t * list diagnostic * option cressi_goa_parser_t) :=
  if negb out then Returns (DC_STATUS_INVALIDARGS, [], None)
  else
    (* Allocate memory. *)
    match dc_parser_allocate memory data with
    | None => Returns (DC_STATUS_NOMEMORY, [Failed_to_allocate_memory], None)
    | Some parser =>
        r <- cressi_goa_init parser ;;
        let '(status, log, parser') := r in
        match status with
        | DC_STATUS_SUCCESS => Returns (DC_STATUS_SUCCESS, log, Some parser')
        | _ => Returns (status, log, None)
        end
    end.

(** ** [cressi_goa_parser_get_datetime] *)

Inductive dc_timezone_t : Type :=
| DC_TIMEZONE_NONE
| DC_TIMEZONE_OFFSET (seconds : Z).

Module Datetime.

Record dc_datetime_t : Type := mk {
  year : Z;
  month : Z;
  day : Z;
  hour : Z;
  minute : Z;
  second : Z;
  timezone : dc_timezone_t
}.

End Datetime.

(** [datetime] tells whether the output pointer is non-null; the second
    component of the result is what was stored through it. *)
Definition cressi_goa_parser_get_datetime (parser : cressi_goa_parser_t) (datetime : bool)
  : outcome (dc_status_t * option Datetime.dc_datetime_t) :=
  let abstract := base parser in
  let p := ptr_add (ptr_add (base_data abstract) (headersize parser))
                   (Layout.datetime (layout parser)) in
  if datetime then
    year <- array_uint16_le p ;;
    month <- deref p 2 ;;
    day <- deref p 3 ;;
    hour <- deref p 4 ;;
    minute <- deref p 5 ;;
    Returns (DC_STATUS_SUCCESS,
             Some (Datetime.mk year month day hour minute 0 DC_TIMEZONE_NONE))
  else
    Returns (DC_STATUS_SUCCESS, None).

(** ** [cressi_goa_parser_get_field] *)

(** The field selectors of [dc_field_type_t].  The enumeration is declared
    in the public headers; the constructors are the selectors the [switch]
    names, and [DC_FIELD_OTHER] stands for every other value of the type
    (salinity, tanks, surface and maximum temperature, ...). *)
Inductive dc_field_type_t : Type :=
| DC_FIELD_DIVETIME
| DC_FIELD_MAXDEPTH
| DC_FIELD_AVGDEPTH
| DC_FIELD_TEMPERATURE_MINIMUM
| DC_FIELD_ATMOSPHERIC
| DC_FIELD_GASMIX_COUNT
| DC_FIELD_GASMIX
| DC_FIELD_DIVEMODE
| DC_FIELD_OTHER (code : Z).

Inductive dc_divemode_t : Type :=
| DC_DIVEMODE_FREEDIVE
| DC_DIVEMODE_GAUGE
| DC_DIVEMODE_OC.

Inductive dc_usage_t : Type :=
| DC_USAGE_NONE
| DC_USAGE_OXYGEN
| DC_USAGE_DILUENT
| DC_USAGE_SIDEMOUNT.

Module Gasmix.

Record dc_gasmix_t : Type := mk {
  helium : float;
  oxygen : float;
  nitrogen : float;
  usage : dc_usage_t
}.

End Gasmix.

(** What a field query stores through its [void *value] argument. *)
Inductive field_value : Type :=
| UIntValue (n : Z)
| DoubleValue (d : float)
| GasmixValue (g : Gasmix.dc_gasmix_t)
| DivemodeValue (m : dc_divemode_t).

(** The [for] loop that counts the gas mixes; [n] is the number of
    iterations left before [i] reaches [NGASMIXES]. *)
Fixpoint count_gasmixes (data : pointer) (gasmix : Z) (n : nat) (i ngasmixes : Z)
  : outcome Z :=
  match n with
  | O => Returns ngasmixes
  | S n' =>
      o2 <- deref data (UInt.add (UInt.add gasmix (UInt.mul 2 i)) 1) ;;
      if o2 =? 0 then Returns ngasmixes
      else count_gasmixes data gasmix n' (UInt.add i 1) (UInt.add ngasmixes 1)
  end.

(** [value] tells whether the output pointer is non-null; the second
    component of the result is what was stored through it. *)
Definition cressi_goa_parser_get_field (parser : cressi_goa_parser_t)
    (type : dc_field_type_t) (flags : Z) (value : bool)
  : outcome (dc_status_t * option field_value) :=
  let abstract := base parser in
  let layout := layout parser in
  let data := ptr_add (base_data abstract) (headersize parser) in
  ngasmixes <-
    (if negb (Layout.gasmix layout =? UNDEFINED) then
       count_gasmixes data (Layout.gasmix layout) (Z.to_nat NGASMIXES) 0 0
     else Returns 0) ;;
  if value then
    match type with
    | DC_FIELD_DIVETIME =>
        if Layout.divetime layout =? UNDEFINED then Returns (DC_STATUS_UNSUPPORTED, None)
        else
          raw <- array_uint16_le (ptr_add data (Layout.divetime layout)) ;;
          Returns (DC_STATUS_SUCCESS, Some (UIntValue raw))
    | DC_FIELD_MAXDEPTH =>
        if Layout.maxdepth layout =? UNDEFINED then Returns (DC_STATUS_UNSUPPORTED, None)
        else
          raw <- array_uint16_le (ptr_add data (Layout.maxdepth layout)) ;;
          Returns (DC_STATUS_SUCCESS, Some (DoubleValue (to_double raw / 10)%float))
    | DC_FIELD_AVGDEPTH =>
        if Layout.avgdepth layout =? UNDEFINED then Returns (DC_STATUS_UNSUPPORTED, None)
        else
          raw <- array_uint16_le (ptr_add data (Layout.avgdepth layout)) ;;
          Returns (DC_STATUS_SUCCESS, Some (DoubleValue (to_double raw / 10)%float))
    | DC_FIELD_TEMPERATURE_MINIMUM =>
        if Layout.temperature layout =? UNDEFINED then Returns (DC_STATUS_UNSUPPORTED, None)
        else
          raw <- array_uint16_le (ptr_add data (Layout.temperature layout)) ;;
          Returns (DC_STATUS_SUCCESS, Some (DoubleValue (to_double raw / 10)%float))
    | DC_FIELD_ATMOSPHERIC =>
        if Layout.atmospheric layout =? UNDEFINED then Returns (DC_STATUS_UNSUPPORTED, None)
        else
          raw <- array_uint16_le (ptr_add data (Layout.atmospheric layout)) ;;
          Returns (DC_STATUS_SUCCESS, Some (DoubleValue (to_double raw / 1000)%float))
    | DC_FIELD_GASMIX_COUNT =>
        Returns (DC_STATUS_SUCCESS, Some (UIntValue ngasmixes))
    | DC_FIELD_GASMIX =>
        let usage := DC_USAGE_NONE in
        let helium := 0%float in
        o2 <- deref data (UInt.add (UInt.add (Layout.gasmix layout) (UInt.mul 2 flags)) 1) ;;
        let oxygen := (to_double o2 / 100)%float in
        let nitrogen := (1 - oxygen - helium)%float in
        Returns (DC_STATUS_SUCCESS, Some (GasmixValue (Gasmix.mk helium oxygen nitrogen usage)))
    | DC_FIELD_DIVEMODE =>
        let divemode := divemode parser in
        if (divemode =? SCUBA) || (divemode =? NITROX) then
          Returns (DC_STATUS_SUCCESS, Some (DivemodeValue DC_DIVEMODE_OC))
        else if divemode =? GAUGE then
          Returns (DC_STATUS_SUCCESS, Some (DivemodeValue DC_DIVEMODE_GAUGE))
        else if divemode =? FREEDIVE then
          Returns (DC_STATUS_SUCCESS, Some (DivemodeValue DC_DIVEMODE_FREEDIVE))
        else
          Returns (DC_STATUS_DATAFORMAT, None)
    | DC_FIELD_OTHER _ =>
        Returns (DC_STATUS_UNSUPPORTED, None)
    end
  else
    Returns (DC_STATUS_SUCCESS, None).

(** ** [cressi_goa_parser_samples_foreach] *)

(** One call [callback (type, &sample, userdata)]: the sample type
    together with the member of the [dc_sample_value_t] union that the
    walk has just assigned. *)
Inductive sample_event : Type :=
| SampleTime (ms : Z)                (* DC_SAMPLE_TIME, sample.time *)
| SampleDepth (m : float)            (* DC_SAMPLE_DEPTH, sample.depth *)
| SampleTemperature (c : float)      (* DC_SAMPLE_TEMPERATURE, sample.temperature *)
| SampleGasmix (index : Z).          (* DC_SAMPLE_GASMIX, sample.gasmix *)

Module Sample.

(** The local variables of the walk that live across iterations. *)
Record state : Type := mk {
  time : Z;
  depth : Z;
  gasmix : Z;
  gasmix_previous : Z;
  temperature : Z;
  have_temperature : Z;
  complete : Z
}.

Definition initial : state := mk 0 0 0 0xFFFFFFFF 0 0 0.

End Sample.

(** [parser->divemode == FREEDIVE ? 2 : 5] *)
Definition sample_interval (divemode : Z) : Z :=
  if divemode =? FREEDIVE then 2 else 5.

Section SampleWalk.

Context {U : Type}.

(** The callback may be null; [userdata] is threaded through the calls. *)
Variable callback : option (sample_event -> U -> U).

(** [if (callback) callback (type, &sample, userdata)] *)
Definition call (e : sample_event) (userdata : U) : U :=
  match callback with
  | Some f => f e userdata
  | None => userdata
  end.

(** Lines 329-357: split the word and update the state by its type. *)
Definition sample_decode (interval raw : Z) (s : Sample.state) (userdata : U)
  : Sample.state * U :=
  (* Get the sample type and value. *)
  let type := Z.land raw 0x0003 in
  let value := Z.shiftr (Z.land raw 0xFFFC) 2 in
  if (type =? DEPTH) || (type =? DEPTH2) then
    let depth := Z.land value 0x07FF in
    let gasmix := Z.shiftr (Z.land value 0x0800) 11 in
    let time := UInt.add (Sample.time s) interval in
    (Sample.mk time depth gasmix (Sample.gasmix_previous s)
               (Sample.temperature s) (Sample.have_temperature s) 1,
     userdata)
  else if type =? TEMPERATURE then
    (Sample.mk (Sample.time s) (Sample.depth s) (Sample.gasmix s)
               (Sample.gasmix_previous s) value 1 (Sample.complete s),
     userdata)
  else if type =? TIME then
    let surftime := value in
    if interval <? surftime then
      let surftime := UInt.sub surftime interval in
      let time := UInt.add (Sample.time s) interval in
      (* Time (seconds). *)
      let userdata := call (SampleTime (UInt.mul time 1000)) userdata in
      (* Depth (1/10 m). *)
      let userdata := call (SampleDepth 0%float) userdata in
      (Sample.mk (UInt.add time surftime) 0 (Sample.gasmix s)
                 (Sample.gasmix_previous s) (Sample.temperature s)
                 (Sample.have_temperature s) 1,
       userdata)
    else
      (Sample.mk (UInt.add (Sample.time s) surftime) 0 (Sample.gasmix s)
                 (Sample.gasmix_previous s) (Sample.temperature s)
                 (Sample.have_temperature s) 1,
       userdata)
  else (s, userdata).

(** Lines 359-385: [if (complete) { ... }]. *)
Definition sample_complete (divemode : Z) (s : Sample.state) (userdata : U)
  : Sample.state * U :=
  if negb (Sample.complete s =? 0) then
    (* Time (seconds). *)
    let userdata := call (SampleTime (UInt.mul (Sample.time s) 1000)) userdata in
    (* Temperature (1/10 °C). *)
    let '(have_temperature, userdata) :=
      if negb (Sample.have_temperature s =? 0) then
        (0, call (SampleTemperature (to_double (Sample.temperature s) / 10)%float) userdata)
      else (Sample.have_temperature s, userdata) in
    (* Depth (1/10 m). *)
    let userdata := call (SampleDepth (to_double (Sample.depth s) / 10)%float) userdata in
    (* Gas change *)
    let '(gasmix_previous, userdata) :=
      if (divemode =? SCUBA) || (divemode =? NITROX) then
        if negb (Sample.gasmix s =? Sample.gasmix_previous s) then
          (Sample.gasmix s, call (SampleGasmix (Sample.gasmix s)) userdata)
        else (Sample.gasmix_previous s, userdata)
      else (Sample.gasmix_previous s, userdata) in
    (Sample.mk (Sample.time s) (Sample.depth s) (Sample.gasmix s) gasmix_previous
               (Sample.temperature s) have_temperature 0,
     userdata)
  else (s, userdata).

(** The body of the [while] loop on one word. *)
Definition sample_step (interval divemode raw : Z) (s : Sample.state) (userdata : U)
  : Sample.state * U :=
  let '(s, userdata) := sample_decode interval raw s userdata in
  sample_complete divemode s userdata.

(** [while (offset + 2 <= size) { ...; offset += 2; }] *)
Fixpoint samples_loop (fuel : nat) (data : pointer) (size interval divemode : Z)
    (offset : Z) (s : Sample.state) (userdata : U) {struct fuel}
  : outcome (Sample.state * U) :=
  if UInt.add offset 2 <=? size then
    match fuel with
    | O => OutOfFuel
    | S fuel' =>
        raw <- array_uint16_le (ptr_add data offset) ;;
        let '(s, userdata) := sample_step interval divemode raw s userdata in
        samples_loop fuel' data size interval divemode (UInt.add offset 2) s userdata
    end
  else Returns (s, userdata).

Definition samples_foreach_fuel (fuel : nat) (parser : cressi_goa_parser_t) (userdata : U)
  : outcome (dc_status_t * U) :=
  let abstract := base parser in
  let layout := layout parser in
  let data := ptr_add (base_data abstract) (headersize parser) in
  let size := UInt.wrap (base_size abstract - headersize parser) in
  let interval := sample_interval (divemode parser) in
  let offset := Layout.headersize layout in
  r <- samples_loop fuel data size interval (divemode parser) offset Sample.initial userdata ;;
  Returns (DC_STATUS_SUCCESS, snd r).

(** Every iteration consumes two bytes of the buffer, so its length is
    fuel enough (theorem [samples_foreach_fuel_enough]). *)
Definition cressi_goa_parser_samples_foreach (parser : cressi_goa_parser_t) (userdata : U)
  : outcome (dc_status_t * U) :=
  samples_foreach_fuel (length (data (base parser))) parser userdata.

End SampleWalk.

(** The callback that records the events it is given, in order. *)
Definition record_event (e : sample_event) (events : list sample_event) : list sample_event :=
  events ++ [e].

(** The status and the event sequence of a walk. *)
Definition samples_events (parser : cressi_goa_parser_t)
  : outcome (dc_status_t * list sample_event) :=
  cressi_goa_parser_samples_foreach (Some record_event) parser [].

(** * Vocabulary of the properties *)

(** ** Bytes and words at absolute positions *)

(** The byte at an absolute position of a buffer. *)
Definition byte_at (B : list byte) (i : Z) : Z := byte_val (nth (Z.to_nat i) B x00).

(** The little-endian 16-bit word at an absolute position of a buffer. *)
Definition word_at (B : list byte) (i : Z) : Z := byte_at B i + 256 * byte_at B (i + 1).

(** ** The header decoder of the specification (section 4.2) *)

Definition no_layout : Layout.cressi_goa_layout_t := Layout.mk 0 0 0 0 0 0 0 0.

Inductive header_error : Type :=
| InvalidLength
| InvalidHeader
| InvalidMode.

Record DecodingContext : Type := mk_context {
  context_layout : Layout.cressi_goa_layout_t;
  context_header_size : Z;
  context_mode : Z
}.

(** The algorithm in the words of the specification, on unbounded
    integers. *)
Definition header_decoder (B : list byte) : header_error + DecodingContext :=
  let len := Z.of_nat (length B) in
  if len <? 2 then inl InvalidLength
  else
    let id_len := byte_at B 0 in
    let logbook_len := byte_at B 1 in
    if (id_len <? 9) || (logbook_len <? 23) then inl InvalidHeader
    else if len <? 2 + id_len + logbook_len then inl InvalidLength
    else
      let mode := byte_at B (2 + id_len + 2) in
      if 4 <=? mode then inl InvalidMode
      else
        let L := nth (Z.to_nat mode) layouts no_layout in
        if len <? (2 + id_len + logbook_len) + Layout.headersize L then inl InvalidLength
        else inr (mk_context L (2 + id_len + logbook_len) mode).

(** The error kind that a diagnostic of the parser reports. *)
Definition diagnostic_kind (d : diagnostic) : option header_error :=
  match d with
  | Invalid_dive_length _ => Some InvalidLength
  | Invalid_id_or_logbook_length _ _ => Some InvalidHeader
  | Invalid_dive_mode _ => Some InvalidMode
  | Failed_to_allocate_memory => None
  end.

(** What [cressi_goa_init] has to return on the object [q] to agree
    with [header_decoder]: on an error the data-format status, one
    diagnostic of that kind and the object untouched; otherwise success,
    no diagnostic, and the three fields of the context stored. *)
Definition agrees_with_header_decoder (q : cressi_goa_parser_t)
    (r : dc_status_t * list diagnostic * cressi_goa_parser_t) : Prop :=
  match header_decoder (data (base q)) with
  | inl e =>
      fst (fst r) = DC_STATUS_DATAFORMAT /\
      map diagnostic_kind (snd (fst r)) = [Some e] /\
      snd r = q
  | inr c =>
      r = (DC_STATUS_SUCCESS, [],
           mk_parser (base q) (context_layout c) (context_header_size c)
                     (version q) (context_mode c))
  end.

(** The buffer length is representable in the [unsigned int] the parser
    copies it to. *)
Definition fits_uint (B : list byte) : Prop := Z.of_nat (length B) <= UInt.max.

(** ** Successfully constructed contexts *)

(** [p] is the object that [cressi_goa_parser_create] stores through
    [out] for the buffer [B]. *)
Definition constructs (B : list byte) (p : cressi_goa_parser_t) : Prop :=
  fits_uint B /\
  exists blank log,
    cressi_goa_parser_create true (Some blank) B = Returns (DC_STATUS_SUCCESS, log, Some p).

(** What the checks of the header decoder establish. *)
Record well_formed (B : list byte) (p : cressi_goa_parser_t) : Prop := {
  wf_base : base p = mk_base B;
  wf_fits : Z.of_nat (length B) <= UInt.max;
  wf_mode : 0 <= divemode p < 4;
  wf_mode_byte : divemode p = byte_at B (2 + byte_at B 0 + 2);
  wf_layout : layout p = nth (Z.to_nat (divemode p)) layouts no_layout;
  wf_headersize : headersize p = 2 + byte_at B 0 + byte_at B 1;
  wf_header_range : 34 <= headersize p <= 512;
  wf_length : headersize p + Layout.headersize (layout p) <= Z.of_nat (length B)
}.

(** ** Field queries *)

(** The offset that a field selector looks up in the layout, for the
    selectors that have one. *)
Definition field_offset (type : dc_field_type_t) (L : Layout.cressi_goa_layout_t) : option Z :=
  match type with
  | DC_FIELD_DIVETIME => Some (Layout.divetime L)
  | DC_FIELD_MAXDEPTH => Some (Layout.maxdepth L)
  | DC_FIELD_AVGDEPTH => Some (Layout.avgdepth L)
  | DC_FIELD_TEMPERATURE_MINIMUM => Some (Layout.temperature L)
  | DC_FIELD_ATMOSPHERIC => Some (Layout.atmospheric L)
  | DC_FIELD_GASMIX_COUNT => Some (Layout.gasmix L)
  | DC_FIELD_GASMIX => Some (Layout.gasmix L)
  | DC_FIELD_DIVEMODE => None
  | DC_FIELD_OTHER _ => None
  end.

(** The unit scale of the specification for the 16-bit fields: whole
    seconds, tenths of a metre, tenths of a degree, thousandths of a bar. *)
Definition scaled (type : dc_field_type_t) (raw : Z) : option field_value :=
  match type with
  | DC_FIELD_DIVETIME => Some (UIntValue raw)
  | DC_FIELD_MAXDEPTH => Some (DoubleValue (to_double raw / 10)%float)
  | DC_FIELD_AVGDEPTH => Some (DoubleValue (to_double raw / 10)%float)
  | DC_FIELD_TEMPERATURE_MINIMUM => Some (DoubleValue (to_double raw / 10)%float)
  | DC_FIELD_ATMOSPHERIC => Some (DoubleValue (to_double raw / 1000)%float)
  | _ => None
  end.

(** The oxygen percentage of a gas-mix slot: the second byte of the
    two-byte slot at the gasmix offset of the mode-specific region. *)
Definition oxygen_byte (B : list byte) (p : cressi_goa_parser_t) (slot : Z) : Z :=
  byte_at B (headersize p + Layout.gasmix (layout p) + 2 * slot + 1).

(** The number of leading nonzero elements. *)
Fixpoint leading_nonzero (l : list Z) : Z :=
  match l with
  | [] => 0
  | x :: l' => if x =? 0 then 0 else 1 + leading_nonzero l'
  end.

(** The gas-mix count in the words of the specification. *)
Definition gasmix_count (B : list byte) (p : cressi_goa_parser_t) : Z :=
  leading_nonzero [oxygen_byte B p 0; oxygen_byte B p 1].

(** The gas mix of the specification for an oxygen percentage. *)
Definition gasmix_of_percentage (o2 : Z) : Gasmix.dc_gasmix_t :=
  let oxygen := (to_double o2 / 100)%float in
  Gasmix.mk 0%float oxygen (1 - oxygen - 0)%float DC_USAGE_NONE.

(** The value of [ngasmixes] on a context. *)
Definition ngasmixes_of (B : list byte) (p : cressi_goa_parser_t) : Z :=
  if Layout.gasmix (layout p) =? UNDEFINED then 0 else gasmix_count B p.

(** ** The sample region and its words *)

(** The 16-bit little-endian words of a byte sequence; a last byte without
    a partner is not part of any word. *)
Fixpoint words (bs : list byte) : list Z :=
  match bs with
  | lo :: hi :: rest => (byte_val lo + 256 * byte_val hi) :: words rest
  | _ => []
  end.

(** Where the sample region starts. *)
Definition samples_start (p : cressi_goa_parser_t) : Z :=
  headersize p + Layout.headersize (layout p).

(** The words of the sample region of a buffer. *)
Definition sample_words (B : list byte) (p : cressi_goa_parser_t) : list Z :=
  words (skipn (Z.to_nat (samples_start p)) B).

Definition is_word (w : Z) : Prop := 0 <= w < 65536.

Section Walk.

Context {U : Type}.
Variable callback : option (sample_event -> U -> U).

(** The loop body applied to a sequence of words in turn. *)
Definition walk (interval divemode : Z) (ws : list Z) (su : Sample.state * U)
  : Sample.state * U :=
  fold_left (fun su raw => sample_step callback interval divemode raw (fst su) (snd su)) ws su.

(** The calls made for a list of events, in order. *)
Definition deliver (events : list sample_event) (u : U) : U :=
  fold_left (fun u e => call callback e u) events u.

End Walk.

(** ** Records and events *)

(** A gas-mix change is reported in the Scuba and Nitrox modes, when the
    current index differs from the one reported last. *)
Definition gas_change (divemode : Z) (s : Sample.state) : bool :=
  ((divemode =? SCUBA) || (divemode =? NITROX))
  && negb (Sample.gasmix s =? Sample.gasmix_previous s).

(** The events of a completed record, in order. *)
Definition record_events (divemode : Z) (s : Sample.state) : list sample_event :=
  [SampleTime (UInt.mul (Sample.time s) 1000)]
  ++ (if Sample.have_temperature s =? 0 then []
      else [SampleTemperature (to_double (Sample.temperature s) / 10)%float])
  ++ [SampleDepth (to_double (Sample.depth s) / 10)%float]
  ++ (if gas_change divemode s then [SampleGasmix (Sample.gasmix s)] else []).

(** The state after a completed record. *)
Definition record_state (divemode : Z) (s : Sample.state) : Sample.state :=
  Sample.mk (Sample.time s) (Sample.depth s) (Sample.gasmix s)
            (if gas_change divemode s then Sample.gasmix s else Sample.gasmix_previous s)
            (Sample.temperature s) 0 0.

Definition is_gasmix_event (e : sample_event) : bool :=
  match e with
  | SampleGasmix _ => true
  | _ => false
  end.

(** The events that the loop body emits on one word, and the state it
    leaves. *)
Definition step_events (interval divemode raw : Z) (s : Sample.state) : list sample_event :=
  snd (sample_step (Some record_event) interval divemode raw s []).

Definition step_state (interval divemode raw : Z) (s : Sample.state) : Sample.state :=
  fst (sample_step (Some record_event) interval divemode raw s []).

Fixpoint walk_events (interval divemode : Z) (ws : list Z) (s : Sample.state)
  : list sample_event :=
  match ws with
  | [] => []
  | raw :: ws' =>
      step_events interval divemode raw s
      ++ walk_events interval divemode ws' (step_state interval divemode raw s)
  end.

Fixpoint walk_state (interval divemode : Z) (ws : list Z) (s : Sample.state) : Sample.state :=
  match ws with
  | [] => s
  | raw :: ws' => walk_state interval divemode ws' (step_state interval divemode raw s)
  end.

Definition set_temperature (s : Sample.state) (value : Z) : Sample.state :=
  Sample.mk (Sample.time s) (Sample.depth s) (Sample.gasmix s) (Sample.gasmix_previous s)
            value 1 (Sample.complete s).

(** ** Operations on the parser object *)

(** The operations of the parser on its object, as a host calls them one
    after the other. *)
Inductive operation : Type :=
| Init
| GetDatetime (datetime : bool)
| GetField (type : dc_field_type_t) (flags : Z) (value : bool)
| SamplesForeach.

(** What the host sees of an operation. *)
Inductive observation : Type :=
| InitResult (status : dc_status_t) (log : list diagnostic)
| DatetimeResult (status : dc_status_t) (datetime : option Datetime.dc_datetime_t)
| FieldResult (status : dc_status_t) (value : option field_value)
| SamplesResult (status : dc_status_t) (events : list sample_event).

(** An operation on the object: what is observed, and the object after
    it.  Only [cressi_goa_init] assigns to fields of the object. *)
Definition perform (op : operation) (parser : cressi_goa_parser_t)
  : outcome (observation * cressi_goa_parser_t) :=
  match op with
  | Init =>
      r <- cressi_goa_init parser ;;
      Returns (InitResult (fst (fst r)) (snd (fst r)), snd r)
  | GetDatetime datetime =>
      r <- cressi_goa_parser_get_datetime parser datetime ;;
      Returns (DatetimeResult (fst r) (snd r), parser)
  | GetField type flags value =>
      r <- cressi_goa_parser_get_field parser type flags value ;;
      Returns (FieldResult (fst r) (snd r), parser)
  | SamplesForeach =>
      r <- samples_events parser ;;
      Returns (SamplesResult (fst r) (snd r), parser)
  end.

(** The same operation twice in a row: both observations and the object
    at the end. *)
Definition twice (op : operation) (parser : cressi_goa_parser_t)
  : outcome (observation * observation * cressi_goa_parser_t) :=
  r1 <- perform op parser ;;
  r2 <- perform op (snd r1) ;;
  Returns (fst r1, fst r2, snd r2).

(** The header decoder reads nothing but the buffer: on two objects that
    hold the same buffer it gives the same status and diagnostic, and on
    success the same layout, header size and dive mode. *)
Definition same_decoding
    (r1 r2 : outcome (dc_status_t * list diagnostic * cressi_goa_parser_t)) : Prop :=
  match r1, r2 with
  | Returns (st1, log1, p1), Returns (st2, log2, p2) =>
      st1 = st2 /\ log1 = log2 /\
      (st1 = DC_STATUS_SUCCESS ->
       layout p1 = layout p2 /\ headersize p1 = headersize p2 /\ divemode p1 = divemode p2)
  | Undefined, Undefined => True
  | OutOfFuel, OutOfFuel => True
  | _, _ => False
  end.

(** ** Concrete dive records, one per dive mode *)

Definition byte_of_Z (z : Z) : byte :=
  match Byte.of_N (Z.to_N z) with
  | Some b => b
  | None => x00
  end.

Definition bytes (l : list Z) : list byte := map byte_of_Z l.

(** A block of memory as the allocator may hand it out. *)
Definition blank_parser : cressi_goa_parser_t :=
  mk_parser (mk_base []) (Layout.mk 0 0 0 0 0 0 0 0) 0 0 0.

(** A record with a 9-byte identifier block, a 23-byte logbook block whose
    third byte is the dive mode, a mode-specific header filled from
    [fields] (padded with zeros to [n] bytes) and the sample bytes. *)
Definition dive_record (mode : Z) (n : nat) (fields samples : list Z) : list byte :=
  bytes ([9; 23] ++ repeat 0 9 ++ [0; 0; mode] ++ repeat 0 20
         ++ firstn n (fields ++ repeat 0 n) ++ samples).

Definition scuba_buffer : list byte :=
  dive_record SCUBA 92 (repeat 0 26 ++ [0; 21; 0; 32]) [62; 0; 43; 0; 144; 1; 7].

Definition scuba_parser : cressi_goa_parser_t :=
  mk_parser (mk_base scuba_buffer) (Layout.mk 92 12 20 26 30 73 75 77) 34 0 SCUBA.

Definition freedive_buffer : list byte :=
  dive_record FREEDIVE 38 ([50] ++ repeat 0 22 ++ [200; 0; 180; 0]) [40; 0; 3].

Definition freedive_parser : cressi_goa_parser_t :=
  mk_parser (mk_base freedive_buffer)
            (Layout.mk 38 12 20 UNDEFINED UNDEFINED 23 UNDEFINED 25) 34 0 FREEDIVE.

Definition gauge_buffer : list byte :=
  dive_record GAUGE 40 (repeat 0 22 ++ [245; 3; 49; 1]) [144; 1; 7].

Definition gauge_parser : cressi_goa_parser_t :=
  mk_parser (mk_base gauge_buffer) (Layout.mk 40 12 20 UNDEFINED 22 24 26 28) 34 0 GAUGE.

Definition truncated_buffer : list byte :=
  dive_record SCUBA 92 (repeat 0 26 ++ [0; 21; 0; 32]) [62; 0; 43; 0; 144; 1].

Definition truncated_parser : cressi_goa_parser_t :=
  mk_parser (mk_base truncated_buffer) (Layout.mk 92 12 20 26 30 73 75 77) 34 0 SCUBA.

(** ** Further vocabulary: statuses, events and their ranges *)

(** The statuses [cressi_goa_parser_create] can return. *)
Definition create_status (st : dc_status_t) : Prop :=
  st = DC_STATUS_SUCCESS \/ st = DC_STATUS_INVALIDARGS \/ st = DC_STATUS_NOMEMORY
  \/ st = DC_STATUS_DATAFORMAT.

(** The dive mode reported for a mode index of the layout table. *)
Definition divemode_of_index (mode : Z) : dc_divemode_t :=
  if (mode =? SCUBA) || (mode =? NITROX) then DC_DIVEMODE_OC
  else if mode =? GAUGE then DC_DIVEMODE_GAUGE
  else DC_DIVEMODE_FREEDIVE.

(** A record of the smallest size the header decoder accepts: Freedive
    mode, no sample. *)
Definition smallest_buffer : list byte := dive_record FREEDIVE 38 [] [].

Definition smallest_parser : cressi_goa_parser_t :=
  mk_parser (mk_base smallest_buffer)
            (Layout.mk 38 12 20 UNDEFINED UNDEFINED 23 UNDEFINED 25) 34 0 FREEDIVE.

(** The scuba record with another sample region. *)
Definition scuba_other_samples : list byte :=
  dive_record SCUBA 92 (repeat 0 26 ++ [0; 21; 0; 32]) [8; 0].

Definition scuba_other_parser : cressi_goa_parser_t :=
  mk_parser (mk_base scuba_other_samples) (Layout.mk 92 12 20 26 30 73 75 77) 34 0 SCUBA.

(** The gauge record with another mode-specific header. *)
Definition gauge_other_header : list byte :=
  dive_record GAUGE 40 [1; 2; 3; 4; 5; 6; 7; 8; 9; 10; 11; 12; 226; 7; 6; 15; 10; 30]
              [144; 1; 7].

Definition gauge_other_parser : cressi_goa_parser_t :=
  mk_parser (mk_base gauge_other_header) (Layout.mk 40 12 20 UNDEFINED 22 24 26 28) 34 0 GAUGE.

(** ** Further vocabulary: the sample walk *)

(** The state and the synthetic events that the update by one word
    leaves, before the record is completed. *)
Definition decode_state (interval raw : Z) (s : Sample.state) : Sample.state :=
  fst (sample_decode (Some record_event) interval raw s []).

Definition synthetic_events (interval raw : Z) (s : Sample.state) : list sample_event :=
  snd (sample_decode (Some record_event) interval raw s []).

(** The values an event can carry: a 32-bit time, a depth of at most
    2047 tenths of a metre, a temperature of at most 16383 tenths of a
    degree, a gas-mix index of 0 or 1. *)
Definition event_in_range (e : sample_event) : Prop :=
  match e with
  | SampleTime ms => 0 <= ms < UInt.modulus
  | SampleDepth m => exists d, 0 <= d <= 2047 /\ m = (to_double d / 10)%float
  | SampleTemperature c => exists v, 0 <= v <= 16383 /\ c = (to_double v / 10)%float
  | SampleGasmix index => index = 0 \/ index = 1
  end.

Definition state_in_range (s : Sample.state) : Prop :=
  0 <= Sample.depth s <= 2047 /\
  0 <= Sample.gasmix s <= 1 /\
  0 <= Sample.temperature s <= 16383.

(** [chain R x0 [x1; ...; xn]]: [R x0 x1], [R x1 x2], ... *)
Fixpoint chain {A : Type} (R : A -> A -> Prop) (prev : A) (l : list A) : Prop :=
  match l with
  | [] => True
  | x :: l' => R prev x /\ chain R x l'
  end.

(** The indices of the gas-mix events and the values of the Time events
    of an event sequence, in order. *)
Definition gasmix_indices (events : list sample_event) : list Z :=
  flat_map (fun e => match e with SampleGasmix index => [index] | _ => [] end) events.

Definition time_stamps (events : list sample_event) : list Z :=
  flat_map (fun e => match e with SampleTime ms => [ms] | _ => [] end) events.

Definition is_time_event (e : sample_event) : bool :=
  match e with SampleTime _ => true | _ => false end.

Definition is_depth_event (e : sample_event) : bool :=
  match e with SampleDepth _ => true | _ => false end.

Definition is_temperature_event (e : sample_event) : bool :=
  match e with SampleTemperature _ => true | _ => false end.

Definition count_events (f : sample_event -> bool) (events : list sample_event) : nat :=
  length (filter f events).

(** The seconds a word adds to the time accumulator: the interval for a
    Depth or DepthAlt word, the payload for a Time word, nothing for a
    Temperature word. *)
Definition duration (interval raw : Z) : Z :=
  let type := Z.land raw 3 in
  if (type =? DEPTH) || (type =? DEPTH2) then interval
  else if type =? TIME then Z.shiftr raw 2
  else 0.

Definition total_duration (interval : Z) (ws : list Z) : Z :=
  fold_right (fun raw total => duration interval raw + total) 0 ws.

Definition is_temperature_word (raw : Z) : bool := Z.land raw 3 =? TEMPERATURE.

(** A Nitrox record whose depth words switch the gas mix twice. *)
Definition gas_switch_buffer : list byte :=
  dive_record NITROX 92 (repeat 0 26 ++ [0; 32; 0; 50])
              [40; 0; 80; 0; 120; 32; 160; 32; 100; 0].

Definition gas_switch_parser : cressi_goa_parser_t :=
  mk_parser (mk_base gas_switch_buffer) (Layout.mk 92 12 20 26 30 73 75 77) 34 0 NITROX.

(** A Gauge record with two Temperature words (1.0 and 2.0 degrees)
    before a Depth word. *)
Definition two_temperatures_buffer : list byte :=
  dive_record GAUGE 40 [] [43; 0; 83; 0; 144; 1].

Definition two_temperatures_parser : cressi_goa_parser_t :=
  mk_parser (mk_base two_temperatures_buffer) (Layout.mk 40 12 20 UNDEFINED 22 24 26 28)
            34 0 GAUGE.

(** Whether a temperature is pending: 1 or 0. *)
Definition pending (s : Sample.state) : nat :=
  if Sample.have_temperature s =? 0 then 0%nat else 1%nat.

Definition temperature_words (ws : list Z) : nat := length (filter is_temperature_word ws).

(** * Properties *)

(** ** Machine integers *)

Module UIntFacts.

Import UInt.

Lemma wrap_small z : 0 <= z < modulus -> wrap z = z.
Proof. intros H. unfold wrap. now apply Z.mod_small. Qed.

Lemma add_small a b : 0 <= a + b < modulus -> add a b = a + b.
Proof. apply wrap_small. Qed.

Lemma mul_small a b : 0 <= a * b < modulus -> mul a b = a * b.
Proof. apply wrap_small. Qed.

Lemma sub_small a b : 0 <= a - b < modulus -> sub a b = a - b.
Proof. apply wrap_small. Qed.

End UIntFacts.

(** ** Reads inside the buffer *)

Lemma byte_val_range b : 0 <= byte_val b <= 255.
Proof.
  unfold byte_val. pose proof (Byte.to_N_bounded b) as H.
  apply N2Z.inj_le in H. change (Z.of_N 255) with 255 in H. lia.
Qed.

Lemma byte_at_range B i : 0 <= byte_at B i <= 255.
Proof. apply byte_val_range. Qed.

Lemma deref_inside p i :
  0 <= position p + i < Z.of_nat (length (block p)) ->
  deref p i = Returns (byte_at (block p) (position p + i)).
Proof.
  intros H. unfold deref, byte_at.
  destruct (Z.ltb_spec (position p + i) 0) as [Hneg|_]; [lia|].
  destruct (nth_error (block p) (Z.to_nat (position p + i))) as [b|] eqn:E.
  - now rewrite (nth_error_nth _ _ x00 E).
  - apply nth_error_None in E. lia.
Qed.

Lemma deref_outside p i :
  Z.of_nat (length (block p)) <= position p + i ->
  deref p i = Undefined.
Proof.
  intros H. unfold deref.
  destruct (Z.ltb_spec (position p + i) 0) as [Hneg|Hpos]; [reflexivity|].
  destruct (nth_error (block p) (Z.to_nat (position p + i))) as [b|] eqn:E; [|reflexivity].
  assert (nth_error (block p) (Z.to_nat (position p + i)) <> None) as N by congruence.
  apply nth_error_Some in N. lia.
Qed.

Lemma array_uint16_le_inside p :
  0 <= position p -> position p + 1 < Z.of_nat (length (block p)) ->
  array_uint16_le p = Returns (word_at (block p) (position p)).
Proof.
  intros H0 H1. unfold array_uint16_le, word_at.
  rewrite !deref_inside by lia. cbn [bind].
  rewrite Z.add_0_r, Z.shiftl_mul_pow2 by lia. f_equal. change (2 ^ 8) with 256. lia.
Qed.

(** ** Header decoding *)

Lemma layouts_lookup mode :
  0 <= mode < 4 ->
  nth_error layouts (Z.to_nat mode)
  = Some (nth (Z.to_nat mode) layouts no_layout).
Proof.
  intros H.
  assert (mode = 0 \/ mode = 1 \/ mode = 2 \/ mode = 3) as [->|[->|[->| ->]]] by lia;
    reflexivity.
Qed.

Lemma layouts_headersize mode :
  0 <= mode < 4 ->
  38 <= Layout.headersize (nth (Z.to_nat mode) layouts no_layout) <= 92.
Proof.
  intros H.
  assert (mode = 0 \/ mode = 1 \/ mode = 2 \/ mode = 3) as [->|[->|[->| ->]]] by lia;
    vm_compute; split; discriminate.
Qed.

Lemma cressi_goa_init_refines q :
  fits_uint (data (base q)) ->
  exists r, cressi_goa_init q = Returns r /\ agrees_with_header_decoder q r.
Proof.
  intros Hfit. unfold fits_uint, UInt.max in Hfit.
  unfold cressi_goa_init, agrees_with_header_decoder, header_decoder, base_size, base_data.
  set (B := data (base q)) in *.
  set (len := Z.of_nat (length B)) in *.
  assert (0 <= len) as Hlen0 by (subst len; lia).
  rewrite (UIntFacts.wrap_small len) by (unfold UInt.modulus; lia).
  destruct (Z.ltb_spec len 2) as [Hlt|Hge].
  { eexists; split; [reflexivity|]. cbn. auto. }
  rewrite !deref_inside by (cbn; lia). cbn [bind position block].
  change (0 + 0) with 0. change (0 + 1) with 1.
  pose proof (byte_at_range B 0) as R0. pose proof (byte_at_range B 1) as R1.
  set (id_len := byte_at B 0) in *. set (logbook_len := byte_at B 1) in *.
  change SZ_HEADER with 23.
  destruct ((id_len <? 9) || (logbook_len <? 23)) eqn:Ehdr.
  { eexists; split; [reflexivity|]. cbn. auto. }
  apply orb_false_iff in Ehdr as [E1 E2]. apply Z.ltb_ge in E1, E2.
  rewrite (UIntFacts.add_small 2 id_len) by (unfold UInt.modulus; lia).
  rewrite (UIntFacts.add_small (2 + id_len) logbook_len) by (unfold UInt.modulus; lia).
  destruct (Z.ltb_spec len (2 + id_len + logbook_len)) as [Hshort|Hfits].
  { eexists; split; [reflexivity|]. cbn. auto. }
  rewrite deref_inside by (cbn [ptr_add position block]; fold len; lia).
  cbn [bind ptr_add position block].
  replace (0 + 2 + id_len + 2) with (2 + id_len + 2) by lia.
  pose proof (byte_at_range B (2 + id_len + 2)) as Rm.
  set (mode := byte_at B (2 + id_len + 2)) in *.
  change layouts_size with 4.
  destruct (Z.leb_spec 4 mode) as [Hbad|Hmode].
  { eexists; split; [reflexivity|]. cbn. auto. }
  rewrite layouts_lookup by lia.
  pose proof (layouts_headersize mode ltac:(lia)) as RL.
  set (L := nth (Z.to_nat mode) layouts _) in *.
  rewrite (UIntFacts.add_small (2 + id_len + logbook_len)) by (unfold UInt.modulus; lia).
  destruct (Z.ltb_spec len (2 + id_len + logbook_len + Layout.headersize L)) as [Hs|Hok].
  { eexists; split; [reflexivity|]. cbn. auto. }
  eexists; split; reflexivity.
Qed.

Lemma header_decoder_context B c :
  header_decoder B = inr c ->
  0 <= context_mode c < 4 /\
  context_mode c = byte_at B (2 + byte_at B 0 + 2) /\
  context_layout c = nth (Z.to_nat (context_mode c)) layouts no_layout /\
  context_header_size c = 2 + byte_at B 0 + byte_at B 1 /\
  34 <= context_header_size c <= 512 /\
  context_header_size c + Layout.headersize (context_layout c) <= Z.of_nat (length B).
Proof.
  unfold header_decoder.
  pose proof (byte_at_range B 0) as R0. pose proof (byte_at_range B 1) as R1.
  pose proof (byte_at_range B (2 + byte_at B 0 + 2)) as Rm.
  generalize dependent (byte_at B (2 + byte_at B 0 + 2)). intros mode Rm.
  generalize dependent (byte_at B 1). generalize dependent (byte_at B 0).
  intros id_len R0 logbook_len R1.
  destruct (Z.ltb_spec (Z.of_nat (length B)) 2); [discriminate|].
  destruct ((id_len <? 9) || (logbook_len <? 23)) eqn:Ehdr; [discriminate|].
  apply orb_false_iff in Ehdr as [E1 E2]. apply Z.ltb_ge in E1, E2.
  destruct (Z.ltb_spec (Z.of_nat (length B)) (2 + id_len + logbook_len)); [discriminate|].
  destruct (Z.leb_spec 4 mode); [discriminate|].
  fold no_layout.
  destruct (Z.ltb_spec (Z.of_nat (length B))
              (2 + id_len + logbook_len
               + Layout.headersize (nth (Z.to_nat mode) layouts no_layout)));
    [discriminate|].
  intros Hc.
  assert (c = mk_context (nth (Z.to_nat mode) layouts no_layout)
                         (2 + id_len + logbook_len) mode) as -> by congruence.
  cbn [context_mode context_layout context_header_size].
  repeat apply conj; try reflexivity; lia.
Qed.

Lemma create_runs_init blank B st log out :
  cressi_goa_parser_create true (Some blank) B = Returns (st, log, out) ->
  exists p',
    cressi_goa_init
      (mk_parser (mk_base B) (layout blank) (headersize blank) (version blank) (divemode blank))
    = Returns (st, log, p') /\
    out = match st with DC_STATUS_SUCCESS => Some p' | _ => None end.
Proof.
  unfold cressi_goa_parser_create. cbn [negb dc_parser_allocate].
  destruct (cressi_goa_init _) as [[[st' log'] p']| |]; cbn [bind]; try discriminate.
  destruct st'; intros [= <- <- <-]; eexists; split; reflexivity.
Qed.

Lemma constructs_well_formed B p : constructs B p -> well_formed B p.
Proof.
  intros [Hfit (blank & log & Hcreate)].
  apply create_runs_init in Hcreate as (p' & Hinit & Hout).
  assert (p' = p) as -> by congruence. clear Hout.
  set (q := mk_parser (mk_base B) _ _ _ _) in Hinit.
  destruct (cressi_goa_init_refines q Hfit) as (r & Hr & Hagree).
  rewrite Hinit in Hr. assert (r = (DC_STATUS_SUCCESS, log, p)) as -> by congruence.
  unfold agrees_with_header_decoder in Hagree. unfold q in Hagree.
  cbn [base data version] in Hagree.
  destruct (header_decoder B) as [e|c] eqn:Hdec.
  - destruct Hagree as [Hst _]. discriminate Hst.
  - assert (p = mk_parser (mk_base B) (context_layout c) (context_header_size c)
                          (version blank) (context_mode c)) as -> by congruence.
    destruct (header_decoder_context _ _ Hdec) as (Hm & Hmb & HL & Hhs & Hrg & Hlen).
    constructor; cbn [base layout headersize divemode]; auto.
Qed.

(** The four contexts a construction can end in, by dive mode. *)
Lemma well_formed_modes B p :
  well_formed B p ->
  (divemode p = SCUBA /\ layout p = Layout.mk 92 12 20 26 30 73 75 77) \/
  (divemode p = NITROX /\ layout p = Layout.mk 92 12 20 26 30 73 75 77) \/
  (divemode p = FREEDIVE /\ layout p = Layout.mk 38 12 20 UNDEFINED UNDEFINED 23 UNDEFINED 25) \/
  (divemode p = GAUGE /\ layout p = Layout.mk 40 12 20 UNDEFINED 22 24 26 28).
Proof.
  intros [_ _ Hm _ HL _ _ _]. rewrite HL. unfold SCUBA, NITROX, FREEDIVE, GAUGE.
  assert (divemode p = 0 \/ divemode p = 1 \/ divemode p = 2 \/ divemode p = 3)
    as [E|[E|[E|E]]] by lia; rewrite E; cbn; auto.
Qed.

Lemma well_formed_layout_headersize B p :
  well_formed B p -> 38 <= Layout.headersize (layout p) <= 92.
Proof.
  intros W.
  destruct (well_formed_modes _ _ W) as [[_ HL]|[[_ HL]|[[_ HL]|[_ HL]]]];
    rewrite HL; cbn [Layout.headersize]; lia.
Qed.

Ltac by_construction :=
  split; [vm_compute; discriminate | exists blank_parser, []; vm_compute; reflexivity].

(** C1. For every buffer whose length an [unsigned int] holds,
    [cressi_goa_init] on a freshly allocated object returns what the
    algorithm of section 4.2 returns, the checks in the same order: a
    data-format status with a diagnostic of the kind InvalidLength,
    InvalidHeader or InvalidMode and the object untouched, or success with
    layout, header size and dive mode stored; and
    [cressi_goa_parser_create] stores an object through [out] only on
    success. *)
Theorem C1_header_decoder_refines (B : list byte) (blank : cressi_goa_parser_t) :
  fits_uint B ->
  let q := mk_parser (mk_base B) (layout blank) (headersize blank) (version blank)
                     (divemode blank) in
  exists st log p',
    cressi_goa_init q = Returns (st, log, p') /\
    agrees_with_header_decoder q (st, log, p') /\
    cressi_goa_parser_create true (Some blank) B
    = Returns (st, log, match header_decoder B with inl _ => None | inr _ => Some p' end).
Proof.
  intros Hfit q.
  destruct (cressi_goa_init_refines q Hfit) as ([[st log] p'] & Hinit & Hagree).
  exists st, log, p'. repeat split; auto.
  unfold cressi_goa_parser_create. cbn [negb dc_parser_allocate]. fold q.
  rewrite Hinit. cbn [bind].
  unfold agrees_with_header_decoder in Hagree. unfold q in Hagree at 1. cbn [base data] in Hagree.
  destruct (header_decoder B) as [e|c].
  - destruct Hagree as (Hst & _ & _). cbn [fst snd] in Hst. now subst st.
  - now injection Hagree as -> -> ->.
Qed.

Lemma C1_header_decoder_refines_witness :
  fits_uint scuba_buffer /\
  exists st log p',
    cressi_goa_init (mk_parser (mk_base scuba_buffer) no_layout 0 0 0) = Returns (st, log, p') /\
    agrees_with_header_decoder (mk_parser (mk_base scuba_buffer) no_layout 0 0 0) (st, log, p') /\
    cressi_goa_parser_create true (Some blank_parser) scuba_buffer
    = Returns (st, log, match header_decoder scuba_buffer with
                        | inl _ => None
                        | inr _ => Some p'
                        end).
Proof.
  split.
  - vm_compute. discriminate.
  - apply (C1_header_decoder_refines scuba_buffer blank_parser). vm_compute. discriminate.
Defined.

(** ** Field queries *)

Lemma read_byte B p i :
  well_formed B p ->
  0 <= i -> headersize p + i < Z.of_nat (length B) ->
  deref (ptr_add (base_data (base p)) (headersize p)) i = Returns (byte_at B (headersize p + i)).
Proof.
  intros W Hi Hin. pose proof (wf_header_range _ _ W).
  rewrite deref_inside; rewrite (wf_base _ _ W); cbn [ptr_add base_data data position block].
  - now rewrite Z.add_0_l.
  - lia.
Qed.

Lemma read_byte_outside B p i :
  well_formed B p ->
  Z.of_nat (length B) <= headersize p + i ->
  deref (ptr_add (base_data (base p)) (headersize p)) i = Undefined.
Proof.
  intros W Hout. apply deref_outside.
  rewrite (wf_base _ _ W); cbn [ptr_add base_data data position block]. lia.
Qed.

Lemma read_word B p off :
  well_formed B p ->
  0 <= off -> off + 2 <= Layout.headersize (layout p) ->
  array_uint16_le (ptr_add (ptr_add (base_data (base p)) (headersize p)) off)
  = Returns (word_at B (headersize p + off)).
Proof.
  intros W H0 H1. pose proof (wf_header_range _ _ W). pose proof (wf_length _ _ W).
  rewrite array_uint16_le_inside; rewrite (wf_base _ _ W);
    cbn [ptr_add base_data data position block]; try lia.
  now rewrite Z.add_0_l.
Qed.

(** Every defined offset of the table leaves room for a 16-bit word (and
    the gas-mix table for its two slots) inside the mode-specific header. *)
Lemma offsets_inside B p type off :
  well_formed B p ->
  field_offset type (layout p) = Some off ->
  off <> UNDEFINED ->
  0 <= off /\ off + 4 <= Layout.headersize (layout p).
Proof.
  intros W Hoff Hdef.
  destruct (well_formed_modes _ _ W) as [[_ HL]|[[_ HL]|[[_ HL]|[_ HL]]]];
    rewrite HL in *; destruct type; cbn in Hoff; try discriminate Hoff;
    injection Hoff as <-;
    try (exfalso; apply Hdef; reflexivity); vm_compute; split; discriminate.
Qed.

Lemma gasmix_defined_value B p :
  well_formed B p -> Layout.gasmix (layout p) <> UNDEFINED -> Layout.gasmix (layout p) = 26.
Proof.
  intros W Hdef.
  destruct (well_formed_modes _ _ W) as [[_ HL]|[[_ HL]|[[_ HL]|[_ HL]]]];
    rewrite HL in *; cbn in *; congruence.
Qed.

(** The counting loop on a context with a gas-mix table. *)
Lemma count_gasmixes_counts B p :
  well_formed B p ->
  Layout.gasmix (layout p) <> UNDEFINED ->
  count_gasmixes (ptr_add (base_data (base p)) (headersize p)) (Layout.gasmix (layout p))
                 (Z.to_nat NGASMIXES) 0 0
  = Returns (gasmix_count B p).
Proof.
  intros W Hdef.
  destruct (offsets_inside B p DC_FIELD_GASMIX _ W eq_refl Hdef) as [G0 G1].
  pose proof (wf_length _ _ W) as Hlen.
  unfold gasmix_count, oxygen_byte.
  rewrite (gasmix_defined_value _ _ W Hdef) in *.
  change (Z.to_nat NGASMIXES) with 2%nat. cbn [count_gasmixes].
  change (UInt.add (UInt.add 26 (UInt.mul 2 0)) 1) with 27.
  change (UInt.add 0 1) with 1.
  change (UInt.add (UInt.add 26 (UInt.mul 2 1)) 1) with 29.
  change (UInt.add 1 1) with 2.
  rewrite (read_byte B p 27 W) by lia. cbn [bind leading_nonzero].
  replace (headersize p + 26 + 2 * 0 + 1) with (headersize p + 27) by lia.
  replace (headersize p + 26 + 2 * 1 + 1) with (headersize p + 29) by lia.
  destruct (byte_at B (headersize p + 27) =? 0); [reflexivity|].
  rewrite (read_byte B p 29 W) by lia. cbn [bind].
  destruct (byte_at B (headersize p + 29) =? 0); reflexivity.
Qed.

Lemma get_field_unfold B p type flags value :
  well_formed B p ->
  cressi_goa_parser_get_field p type flags value
  = let layout := layout p in
    let data := ptr_add (base_data (base p)) (headersize p) in
    if value then
      match type with
      | DC_FIELD_DIVETIME =>
          if Layout.divetime layout =? UNDEFINED then Returns (DC_STATUS_UNSUPPORTED, None)
          else
            raw <- array_uint16_le (ptr_add data (Layout.divetime layout)) ;;
            Returns (DC_STATUS_SUCCESS, Some (UIntValue raw))
      | DC_FIELD_MAXDEPTH =>
          if Layout.maxdepth layout =? UNDEFINED then Returns (DC_STATUS_UNSUPPORTED, None)
          else
            raw <- array_uint16_le (ptr_add data (Layout.maxdepth layout)) ;;
            Returns (DC_STATUS_SUCCESS, Some (DoubleValue (to_double raw / 10)%float))
      | DC_FIELD_AVGDEPTH =>
          if Layout.avgdepth layout =? UNDEFINED then Returns (DC_STATUS_UNSUPPORTED, None)
          else
            raw <- array_uint16_le (ptr_add data (Layout.avgdepth layout)) ;;
            Returns (DC_STATUS_SUCCESS, Some (DoubleValue (to_double raw / 10)%float))
      | DC_FIELD_TEMPERATURE_MINIMUM =>
          if Layout.temperature layout =? UNDEFINED then Returns (DC_STATUS_UNSUPPORTED, None)
          else
            raw <- array_uint16_le (ptr_add data (Layout.temperature layout)) ;;
            Returns (DC_STATUS_SUCCESS, Some (DoubleValue (to_double raw / 10)%float))
      | DC_FIELD_ATMOSPHERIC =>
          if Layout.atmospheric layout =? UNDEFINED then Returns (DC_STATUS_UNSUPPORTED, None)
          else
            raw <- array_uint16_le (ptr_add data (Layout.atmospheric layout)) ;;
            Returns (DC_STATUS_SUCCESS, Some (DoubleValue (to_double raw / 1000)%float))
      | DC_FIELD_GASMIX_COUNT =>
          Returns (DC_STATUS_SUCCESS, Some (UIntValue (ngasmixes_of B p)))
      | DC_FIELD_GASMIX =>
          o2 <- deref data (UInt.add (UInt.add (Layout.gasmix layout) (UInt.mul 2 flags)) 1) ;;
          Returns (DC_STATUS_SUCCESS, Some (GasmixValue (gasmix_of_percentage o2)))
      | DC_FIELD_DIVEMODE =>
          if (divemode p =? SCUBA) || (divemode p =? NITROX) then
            Returns (DC_STATUS_SUCCESS, Some (DivemodeValue DC_DIVEMODE_OC))
          else if divemode p =? GAUGE then
            Returns (DC_STATUS_SUCCESS, Some (DivemodeValue DC_DIVEMODE_GAUGE))
          else if divemode p =? FREEDIVE then
            Returns (DC_STATUS_SUCCESS, Some (DivemodeValue DC_DIVEMODE_FREEDIVE))
          else
            Returns (DC_STATUS_DATAFORMAT, None)
      | DC_FIELD_OTHER _ => Returns (DC_STATUS_UNSUPPORTED, None)
      end
    else Returns (DC_STATUS_SUCCESS, None).
Proof.
  intros W. unfold cressi_goa_parser_get_field, ngasmixes_of.
  destruct (Z.eqb_spec (Layout.gasmix (layout p)) UNDEFINED) as [E|N]; cbn [negb].
  - reflexivity.
  - rewrite (count_gasmixes_counts _ _ W N). reflexivity.
Qed.

(** C10. On a successfully constructed context a field query whose output
    pointer is null returns success and stores nothing, whatever the
    field selector and the index: neither the selector nor the layout
    offset is looked at. *)
Theorem C10_null_value_succeeds (B : list byte) (p : cressi_goa_parser_t)
    (type : dc_field_type_t) (flags : Z) :
  constructs B p ->
  cressi_goa_parser_get_field p type flags false = Returns (DC_STATUS_SUCCESS, None).
Proof.
  intros C. apply constructs_well_formed in C.
  now rewrite (get_field_unfold B p type flags false C).
Qed.

Lemma C10_null_value_succeeds_witness :
  constructs freedive_buffer freedive_parser /\
  cressi_goa_parser_get_field freedive_parser DC_FIELD_AVGDEPTH 0 false
  = Returns (DC_STATUS_SUCCESS, None) /\
  cressi_goa_parser_get_field freedive_parser DC_FIELD_AVGDEPTH 0 true
  = Returns (DC_STATUS_UNSUPPORTED, None).
Proof.
  split; [by_construction|]. split.
  - apply (C10_null_value_succeeds freedive_buffer freedive_parser DC_FIELD_AVGDEPTH 0).
    by_construction.
  - vm_compute. reflexivity.
Defined.

(** C2, as stated, fails: in Freedive mode the gasmix offset is the
    undefined sentinel, and the GasMixCount query succeeds with a count of
    zero. *)
Lemma C2_counterexample :
  constructs freedive_buffer freedive_parser /\
  field_offset DC_FIELD_GASMIX_COUNT (layout freedive_parser) = Some UNDEFINED /\
  cressi_goa_parser_get_field freedive_parser DC_FIELD_GASMIX_COUNT 0 true
  = Returns (DC_STATUS_SUCCESS, Some (UIntValue 0)).
Proof.
  split; [by_construction|]. split; vm_compute; reflexivity.
Qed.

(** C2, amended. On a successfully constructed context, for a non-null
    output pointer and whatever the buffer holds: a DiveTime, MaxDepth,
    AvgDepth, MinTemperature or AtmosphericPressure query whose layout
    offset is the undefined sentinel fails with Unsupported and stores
    nothing; a GasMixCount query whose gasmix offset is undefined succeeds
    with the count 0; and the gasmix offset is undefined in Freedive and
    Gauge modes. *)
Theorem C2_undefined_offset (B : list byte) (p : cressi_goa_parser_t)
    (type : dc_field_type_t) (flags : Z) :
  constructs B p ->
  field_offset type (layout p) = Some UNDEFINED ->
  (type <> DC_FIELD_GASMIX_COUNT -> type <> DC_FIELD_GASMIX ->
   cressi_goa_parser_get_field p type flags true = Returns (DC_STATUS_UNSUPPORTED, None)) /\
  (type = DC_FIELD_GASMIX_COUNT ->
   cressi_goa_parser_get_field p type flags true
   = Returns (DC_STATUS_SUCCESS, Some (UIntValue 0))) /\
  (divemode p = FREEDIVE \/ divemode p = GAUGE -> Layout.gasmix (layout p) = UNDEFINED).
Proof.
  intros C Hoff. apply constructs_well_formed in C.
  rewrite (get_field_unfold B p type flags true C). cbv zeta.
  split; [|split].
  - intros N1 N2.
    destruct type; cbn in Hoff; try discriminate Hoff; try congruence;
      injection Hoff as ->; reflexivity.
  - intros ->. cbn in Hoff. injection Hoff as Hoff.
    unfold ngasmixes_of. now rewrite Hoff.
  - unfold FREEDIVE, GAUGE.
    destruct (well_formed_modes _ _ C) as [[E HL]|[[E HL]|[[E HL]|[E HL]]]];
      rewrite HL, E; unfold SCUBA, NITROX, FREEDIVE, GAUGE; cbn; intros [?|?];
      congruence.
Qed.

Lemma C2_undefined_offset_witness :
  constructs freedive_buffer freedive_parser /\
  field_offset DC_FIELD_ATMOSPHERIC (layout freedive_parser) = Some UNDEFINED /\
  cressi_goa_parser_get_field freedive_parser DC_FIELD_ATMOSPHERIC 0 true
  = Returns (DC_STATUS_UNSUPPORTED, None).
Proof.
  split; [by_construction|]. split; [reflexivity|].
  apply (C2_undefined_offset freedive_buffer freedive_parser DC_FIELD_ATMOSPHERIC 0);
    [by_construction | reflexivity | discriminate | discriminate].
Defined.

(** C6. On a successfully constructed context whose layout defines a
    gasmix offset, the GasMixCount query returns the number of leading
    slots, of the two 2-byte slots at the gasmix offset, whose second byte
    is nonzero; the count is 0, 1 or 2. *)
Theorem C6_gasmix_count (B : list byte) (p : cressi_goa_parser_t) (flags : Z) :
  constructs B p ->
  Layout.gasmix (layout p) <> UNDEFINED ->
  cressi_goa_parser_get_field p DC_FIELD_GASMIX_COUNT flags true
  = Returns (DC_STATUS_SUCCESS, Some (UIntValue (gasmix_count B p))) /\
  (gasmix_count B p = 0 \/ gasmix_count B p = 1 \/ gasmix_count B p = 2).
Proof.
  intros C Hdef. apply constructs_well_formed in C.
  rewrite (get_field_unfold B p _ flags true C). cbv zeta. unfold ngasmixes_of.
  destruct (Z.eqb_spec (Layout.gasmix (layout p)) UNDEFINED) as [E|_]; [contradiction|].
  split; [reflexivity|].
  unfold gasmix_count. cbn [leading_nonzero].
  destruct (oxygen_byte B p 0 =? 0); [auto|].
  destruct (oxygen_byte B p 1 =? 0); auto.
Qed.

Lemma C6_gasmix_count_witness :
  constructs scuba_buffer scuba_parser /\
  Layout.gasmix (layout scuba_parser) <> UNDEFINED /\
  cressi_goa_parser_get_field scuba_parser DC_FIELD_GASMIX_COUNT 0 true
  = Returns (DC_STATUS_SUCCESS, Some (UIntValue 2)).
Proof.
  split; [by_construction|]. split; [discriminate|].
  apply (C6_gasmix_count scuba_buffer scuba_parser 0); [by_construction | discriminate].
Defined.

(** C7. On a successfully constructed context, a query (with a non-null
    output pointer) for a field whose layout offset is defined reads the
    little-endian 16-bit integer at header size + offset and scales it:
    DiveTime is the raw value, MaxDepth, AvgDepth and MinTemperature are
    raw/10.0, AtmosphericPressure is raw/1000.0; and GasMix[index], for a
    slot that lies in the buffer (slots 0 and 1 always do), has oxygen =
    the slot's second byte / 100.0, helium = 0, nitrogen = 1 - oxygen -
    helium and usage none. *)
Theorem C7_field_values (B : list byte) (p : cressi_goa_parser_t) :
  constructs B p ->
  (forall type off value flags,
      field_offset type (layout p) = Some off ->
      off <> UNDEFINED ->
      scaled type (word_at B (headersize p + off)) = Some value ->
      cressi_goa_parser_get_field p type flags true
      = Returns (DC_STATUS_SUCCESS, Some value)) /\
  (forall index,
      Layout.gasmix (layout p) <> UNDEFINED ->
      0 <= index ->
      headersize p + Layout.gasmix (layout p) + 2 * index + 1 < Z.of_nat (length B) ->
      cressi_goa_parser_get_field p DC_FIELD_GASMIX index true
      = Returns (DC_STATUS_SUCCESS,
                 Some (GasmixValue
                         (Gasmix.mk 0%float
                                    (to_double (oxygen_byte B p index) / 100)%float
                                    (1 - to_double (oxygen_byte B p index) / 100 - 0)%float
                                    DC_USAGE_NONE)))) /\
  (forall index,
      Layout.gasmix (layout p) <> UNDEFINED ->
      0 <= index < NGASMIXES ->
      headersize p + Layout.gasmix (layout p) + 2 * index + 1 < Z.of_nat (length B)).
Proof.
  intros C. apply constructs_well_formed in C.
  pose proof (wf_length _ _ C) as Hlen. pose proof (wf_header_range _ _ C) as Hhs.
  pose proof (wf_fits _ _ C) as Hfit. unfold UInt.max in Hfit.
  split; [|split].
  - intros type off value flags Hoff Hdef Hscaled.
    destruct (offsets_inside _ _ _ _ C Hoff Hdef) as [H0 H1].
    rewrite (get_field_unfold B p type flags true C). cbv zeta.
    destruct type; cbn [field_offset] in Hoff; cbn [scaled] in Hscaled;
      try discriminate Hscaled; injection Hoff as Hoff; rewrite Hoff;
      (destruct (Z.eqb_spec off UNDEFINED) as [E|_]; [contradiction|]);
      rewrite (read_word B p off C) by lia; cbn [bind]; now rewrite Hscaled.
  - intros index Hdef H0 Hin.
    rewrite (get_field_unfold B p _ index true C). cbv zeta.
    destruct (offsets_inside B p DC_FIELD_GASMIX _ C eq_refl Hdef) as [G0 G1].
    rewrite (UIntFacts.mul_small 2 index) by (unfold UInt.modulus; lia).
    rewrite (UIntFacts.add_small _ (2 * index)) by (unfold UInt.modulus; lia).
    rewrite (UIntFacts.add_small _ 1) by (unfold UInt.modulus; lia).
    rewrite (read_byte B p _ C) by lia. cbn [bind]. unfold gasmix_of_percentage, oxygen_byte.
    now rewrite !Z.add_assoc.
  - intros index Hdef Hi. unfold NGASMIXES in Hi.
    destruct (offsets_inside B p DC_FIELD_GASMIX _ C eq_refl Hdef) as [G0 G1]. lia.
Qed.

Lemma C7_field_values_witness :
  constructs gauge_buffer gauge_parser /\
  cressi_goa_parser_get_field gauge_parser DC_FIELD_MAXDEPTH 0 true
  = Returns (DC_STATUS_SUCCESS, Some (DoubleValue 30.5%float)) /\
  cressi_goa_parser_get_field gauge_parser DC_FIELD_ATMOSPHERIC 0 true
  = Returns (DC_STATUS_SUCCESS, Some (DoubleValue (to_double 1013 / 1000)%float)).
Proof.
  split; [by_construction|].
  destruct (C7_field_values gauge_buffer gauge_parser ltac:(by_construction)) as (F & _ & _).
  split.
  - apply (F DC_FIELD_MAXDEPTH 24); [reflexivity | discriminate | vm_compute; reflexivity].
  - apply (F DC_FIELD_ATMOSPHERIC 22); [reflexivity | discriminate | vm_compute; reflexivity].
Defined.

(** A GasMix query for a slot beyond the end of the buffer reads outside
    it. *)
Lemma gasmix_query_outside B p index :
  constructs B p ->
  Layout.gasmix (layout p) <> UNDEFINED ->
  0 <= index ->
  Z.of_nat (length B) <= headersize p + Layout.gasmix (layout p) + 2 * index + 1 ->
  Layout.gasmix (layout p) + 2 * index + 1 < UInt.modulus ->
  cressi_goa_parser_get_field p DC_FIELD_GASMIX index true = Undefined.
Proof.
  intros C Hdef H0 Hout Hsmall. apply constructs_well_formed in C.
  rewrite (get_field_unfold B p _ index true C). cbv zeta.
  destruct (offsets_inside B p DC_FIELD_GASMIX _ C eq_refl Hdef) as [G0 G1].
  unfold UInt.modulus in Hsmall.
  rewrite (UIntFacts.mul_small 2 index) by (unfold UInt.modulus; lia).
  rewrite (UIntFacts.add_small _ (2 * index)) by (unfold UInt.modulus; lia).
  rewrite (UIntFacts.add_small _ 1) by (unfold UInt.modulus; lia).
  rewrite (read_byte_outside B p _ C) by lia. reflexivity.
Qed.

(** The GasMix case does not look at the sentinel: in Freedive mode the
    index arithmetic wraps around and slot 0 is read at the first byte of
    the mode-specific region. *)
Lemma gasmix_query_undefined_offset :
  Layout.gasmix (layout freedive_parser) = UNDEFINED /\
  cressi_goa_parser_get_field freedive_parser DC_FIELD_GASMIX 0 true
  = Returns (DC_STATUS_SUCCESS, Some (GasmixValue (gasmix_of_percentage 50))).
Proof. split; vm_compute; reflexivity. Qed.

(** ** The loop as a fold over the words of the sample region *)

Lemma words_nil bs : (length bs < 2)%nat -> words bs = [].
Proof. destruct bs as [|lo [|hi rest]]; cbn; intros; [reflexivity|reflexivity|lia]. Qed.

Lemma skipn_cons_nth (B : list byte) k :
  (k < length B)%nat -> skipn k B = nth k B x00 :: skipn (S k) B.
Proof.
  revert k. induction B as [|b B IH]; intros k Hk; cbn in Hk; [lia|].
  destruct k as [|k]; [reflexivity|].
  cbn [skipn nth]. apply IH. lia.
Qed.

Lemma words_skipn B k :
  0 <= k -> k + 2 <= Z.of_nat (length B) ->
  words (skipn (Z.to_nat k) B) = word_at B k :: words (skipn (Z.to_nat (k + 2)) B).
Proof.
  intros H0 H2.
  rewrite (skipn_cons_nth B (Z.to_nat k)) by lia.
  rewrite (skipn_cons_nth B (S (Z.to_nat k))) by lia.
  cbn [words]. unfold word_at, byte_at.
  replace (Z.to_nat (k + 1)) with (S (Z.to_nat k)) by lia.
  replace (Z.to_nat (k + 2)) with (S (S (Z.to_nat k))) by lia.
  reflexivity.
Qed.

Lemma words_skipn_end B k :
  0 <= k -> Z.of_nat (length B) < k + 2 ->
  words (skipn (Z.to_nat k) B) = [].
Proof.
  intros H0 H2. apply words_nil. rewrite length_skipn. lia.
Qed.

Section LoopAsWalk.

Context {U : Type}.
Variable callback : option (sample_event -> U -> U).
Variables (B : list byte) (p : cressi_goa_parser_t).
Hypothesis W : well_formed B p.

Let region := ptr_add (base_data (base p)) (headersize p).
Let region_size := UInt.wrap (base_size (base p) - headersize p).

Lemma walk_size : region_size = Z.of_nat (length B) - headersize p.
Proof.
  unfold region_size, base_size. rewrite (wf_base _ _ W). cbn [data].
  pose proof (wf_length _ _ W). pose proof (wf_header_range _ _ W).
  pose proof (wf_fits _ _ W) as F. unfold UInt.max in F.
  destruct (well_formed_modes _ _ W) as [[_ HL]|[[_ HL]|[[_ HL]|[_ HL]]]];
    rewrite HL in *; cbn [Layout.headersize] in *;
    apply UIntFacts.wrap_small; unfold UInt.modulus; lia.
Qed.

Lemma samples_loop_walk interval dm fuel :
  forall offset s u,
    0 <= offset ->
    headersize p + offset <= Z.of_nat (length B) ->
    Z.of_nat (length B) - (headersize p + offset) < 2 * Z.of_nat fuel + 2 ->
    samples_loop callback fuel region region_size interval dm offset s u
    = Returns (walk callback interval dm
                    (words (skipn (Z.to_nat (headersize p + offset)) B)) (s, u)).
Proof.
  pose proof (wf_header_range _ _ W) as Hhs.
  pose proof (wf_fits _ _ W) as F. unfold UInt.max in F.
  induction fuel as [|fuel IH]; intros offset s u H0 Hin Hfuel.
  - cbn [samples_loop]. rewrite walk_size.
    rewrite UIntFacts.add_small by (unfold UInt.modulus; lia).
    destruct (Z.leb_spec (offset + 2) (Z.of_nat (length B) - headersize p)); [lia|].
    rewrite words_skipn_end by lia. reflexivity.
  - cbn [samples_loop]. rewrite walk_size.
    rewrite UIntFacts.add_small by (unfold UInt.modulus; lia).
    destruct (Z.leb_spec (offset + 2) (Z.of_nat (length B) - headersize p)) as [Hmore|Hend].
    + unfold region at 1.
      rewrite array_uint16_le_inside;
        rewrite ?(wf_base _ _ W); cbn [ptr_add base_data data position block];
        try lia.
      cbn [bind]. rewrite Z.add_0_l.
      rewrite (words_skipn B (headersize p + offset)) by lia.
      unfold walk at 1. cbn [fold_left fst snd].
      destruct (sample_step callback interval dm (word_at B (headersize p + offset)) s u)
        as [s' u'] eqn:Estep.
      rewrite <- walk_size. rewrite IH by lia.
      now rewrite Z.add_assoc.
    + rewrite words_skipn_end by lia. reflexivity.
Qed.

Lemma samples_foreach_fuel_walk fuel u :
  Z.of_nat (length B) - samples_start p < 2 * Z.of_nat fuel + 2 ->
  samples_foreach_fuel callback fuel p u
  = Returns (DC_STATUS_SUCCESS,
             snd (walk callback (sample_interval (divemode p)) (divemode p)
                       (sample_words B p) (Sample.initial, u))).
Proof.
  intros Hfuel. unfold samples_foreach_fuel, sample_words, samples_start in *.
  pose proof (wf_length _ _ W) as Hlen.
  assert (0 <= Layout.headersize (layout p)) as HL0.
  { destruct (well_formed_modes _ _ W) as [[_ HL]|[[_ HL]|[[_ HL]|[_ HL]]]];
      rewrite HL; cbn; lia. }
  fold region. fold region_size. rewrite samples_loop_walk by lia. reflexivity.
Qed.

End LoopAsWalk.

(** ** Splitting a sample word *)

Lemma word_type_cases raw :
  Z.land raw 3 = DEPTH \/ Z.land raw 3 = DEPTH2 \/ Z.land raw 3 = TIME
  \/ Z.land raw 3 = TEMPERATURE.
Proof.
  change 3 with (Z.ones 2). rewrite Z.land_ones by lia.
  unfold DEPTH, DEPTH2, TIME, TEMPERATURE.
  pose proof (Z.mod_pos_bound raw (2 ^ 2) ltac:(lia)). change (2 ^ 2) with 4 in *. lia.
Qed.

Lemma word_type_payload raw : raw = 4 * Z.shiftr raw 2 + Z.land raw 3.
Proof.
  change 3 with (Z.ones 2). rewrite Z.land_ones, Z.shiftr_div_pow2 by lia.
  change (2 ^ 2) with 4. apply Z.div_mod. lia.
Qed.

Lemma payload_range raw : 0 <= raw < 65536 -> 0 <= Z.shiftr raw 2 < 16384.
Proof.
  intros H. rewrite Z.shiftr_div_pow2 by lia. change (2 ^ 2) with 4.
  split; [apply Z.div_pos; lia | apply Z.div_lt_upper_bound; lia].
Qed.

(** The mask [0xFFFC] before the shift changes nothing on a 16-bit word. *)
Lemma payload_mask raw :
  0 <= raw < 65536 -> Z.shiftr (Z.land raw 0xFFFC) 2 = Z.shiftr raw 2.
Proof.
  intros H. rewrite Z.shiftr_land. change (Z.shiftr 0xFFFC 2) with (Z.ones 14).
  rewrite Z.land_ones by lia. apply Z.mod_small.
  pose proof (payload_range raw H). change (2 ^ 14) with 16384. lia.
Qed.

Lemma gasmix_bit value :
  Z.shiftr (Z.land value 0x0800) 11 = Z.b2z (Z.testbit value 11).
Proof.
  rewrite Z.shiftr_land. change (Z.shiftr 0x0800 11) with (Z.ones 1).
  rewrite Z.land_ones by lia. change (2 ^ 1) with 2.
  rewrite <- Z.bit0_mod, Z.shiftr_spec by lia. reflexivity.
Qed.

Lemma gasmix_bit_range value : 0 <= Z.b2z (Z.testbit value 11) <= 1.
Proof. destruct (Z.testbit value 11); cbn; lia. Qed.

(** ** The update of the state by one word *)

Section Decode.

Context {U : Type}.
Variable callback : option (sample_event -> U -> U).

Lemma sample_decode_depth interval raw s (u : U) :
  0 <= raw < 65536 ->
  Z.land raw 3 = DEPTH \/ Z.land raw 3 = DEPTH2 ->
  sample_decode callback interval raw s u
  = (Sample.mk (UInt.add (Sample.time s) interval)
               (Z.land (Z.shiftr raw 2) 0x07FF)
               (Z.b2z (Z.testbit (Z.shiftr raw 2) 11))
               (Sample.gasmix_previous s) (Sample.temperature s)
               (Sample.have_temperature s) 1,
     u).
Proof.
  intros R T. unfold sample_decode.
  change 0x0003 with 3. rewrite payload_mask, gasmix_bit by assumption.
  destruct T as [-> | ->]; reflexivity.
Qed.

Lemma sample_decode_temperature interval raw s (u : U) :
  0 <= raw < 65536 ->
  Z.land raw 3 = TEMPERATURE ->
  sample_decode callback interval raw s u
  = (Sample.mk (Sample.time s) (Sample.depth s) (Sample.gasmix s)
               (Sample.gasmix_previous s) (Z.shiftr raw 2) 1 (Sample.complete s),
     u).
Proof.
  intros R T. unfold sample_decode.
  change 0x0003 with 3. rewrite payload_mask, T by assumption. reflexivity.
Qed.

Lemma sample_decode_time interval raw s (u : U) :
  0 <= raw < 65536 ->
  Z.land raw 3 = TIME ->
  sample_decode callback interval raw s u
  = if interval <? Z.shiftr raw 2 then
      (Sample.mk (UInt.add (UInt.add (Sample.time s) interval)
                           (UInt.sub (Z.shiftr raw 2) interval))
                 0 (Sample.gasmix s) (Sample.gasmix_previous s) (Sample.temperature s)
                 (Sample.have_temperature s) 1,
       call callback (SampleDepth 0%float)
            (call callback (SampleTime (UInt.mul (UInt.add (Sample.time s) interval) 1000)) u))
    else
      (Sample.mk (UInt.add (Sample.time s) (Z.shiftr raw 2))
                 0 (Sample.gasmix s) (Sample.gasmix_previous s) (Sample.temperature s)
                 (Sample.have_temperature s) 1,
       u).
Proof.
  intros R T. unfold sample_decode.
  change 0x0003 with 3. rewrite payload_mask, T by assumption. reflexivity.
Qed.

End Decode.

Lemma sample_interval_cases divemode :
  (divemode = FREEDIVE -> sample_interval divemode = 2) /\
  (divemode <> FREEDIVE -> sample_interval divemode = 5).
Proof.
  unfold sample_interval. destruct (Z.eqb_spec divemode FREEDIVE); split; congruence.
Qed.

Lemma sample_interval_range divemode : 2 <= sample_interval divemode <= 5.
Proof. unfold sample_interval. destruct (divemode =? FREEDIVE); lia. Qed.

(** C5. A 16-bit sample word splits into its type, the low two bits, and
    its payload, the other fourteen; on a word of type Depth (0) or
    DepthAlt (1) the decoder sets the depth to payload bits 0-10, the
    gas-mix index to payload bit 11, adds the sampling interval to the
    time accumulator (an [unsigned int]) and marks the record complete,
    whichever of the two types it is; the interval is 2 in Freedive mode
    and 5 in every other mode. *)
Theorem C5_depth_word {U : Type} (callback : option (sample_event -> U -> U))
    (divemode raw : Z) (s : Sample.state) (u : U) :
  0 <= raw < 65536 ->
  Z.land raw 3 = DEPTH \/ Z.land raw 3 = DEPTH2 ->
  let payload := Z.shiftr raw 2 in
  let interval := sample_interval divemode in
  raw = 4 * payload + Z.land raw 3 /\
  0 <= payload < 2 ^ 14 /\
  sample_decode callback interval raw s u
  = (Sample.mk (UInt.add (Sample.time s) interval)
               (Z.land payload 0x07FF)
               (Z.b2z (Z.testbit payload 11))
               (Sample.gasmix_previous s) (Sample.temperature s)
               (Sample.have_temperature s) 1,
     u) /\
  (divemode = FREEDIVE -> interval = 2) /\
  (divemode <> FREEDIVE -> interval = 5).
Proof.
  intros R T payload interval.
  split; [apply word_type_payload|].
  split; [apply (payload_range raw R)|].
  split; [now apply sample_decode_depth|].
  apply sample_interval_cases.
Qed.

Lemma C5_depth_word_witness :
  sample_decode (Some record_event) (sample_interval GAUGE) 400 Sample.initial []
  = (Sample.mk 5 100 0 0xFFFFFFFF 0 0 1, []) /\
  sample_decode (Some record_event) (sample_interval FREEDIVE) (4 * (2048 + 7) + 1)
                Sample.initial []
  = (Sample.mk 2 7 1 0xFFFFFFFF 0 0 1, []).
Proof.
  split.
  - apply (C5_depth_word (Some record_event) GAUGE 400 Sample.initial []);
      [lia | left; reflexivity].
  - apply (C5_depth_word (Some record_event) FREEDIVE (4 * (2048 + 7) + 1) Sample.initial []);
      [lia | right; reflexivity].
Defined.

(** C3, as stated, fails: the synthetic Time event carries the
    accumulator after the interval has been added, not the accumulator the
    word was reached with.  A Scuba record whose first sample word is a
    Time word of payload 15, reached with accumulator 0: the synthetic
    record is at 5000 ms, not at 0 ms. *)
Lemma C3_counterexample :
  Z.land 62 3 = TIME /\
  sample_interval SCUBA < Z.shiftr 62 2 /\
  snd (sample_decode (Some record_event) (sample_interval SCUBA) 62 Sample.initial [])
  = [SampleTime 5000; SampleDepth 0%float] /\
  SampleTime 5000 <> SampleTime (Sample.time Sample.initial * 1000) /\
  constructs scuba_buffer scuba_parser /\
  hd_error (sample_words scuba_buffer scuba_parser) = Some 62 /\
  samples_events scuba_parser
  = Returns (DC_STATUS_SUCCESS,
             [SampleTime 5000; SampleDepth 0%float;
              SampleTime 15000; SampleDepth (to_double 0 / 10)%float; SampleGasmix 0;
              SampleTime 20000; SampleTemperature (to_double 10 / 10)%float;
              SampleDepth (to_double 100 / 10)%float]).
Proof.
  repeat apply conj; try (vm_compute; reflexivity).
  - discriminate.
  - vm_compute. discriminate.
  - exists blank_parser, []. vm_compute. reflexivity.
Qed.

(** C3, amended. On a Time word of payload [v], reached with accumulator
    [t]: if [v] exceeds the interval the decoder adds the interval to the
    accumulator, emits a synthetic record, a Time event of (t + interval)
    * 1000 ms (in [unsigned int] arithmetic) followed by a Depth event of
    0 m, then adds the payload less the interval to the accumulator, sets
    the depth to 0 and marks the record complete; otherwise it emits
    nothing, adds the payload to the accumulator, sets the depth to 0 and
    marks the record complete. *)
Theorem C3_time_word {U : Type} (callback : option (sample_event -> U -> U))
    (divemode raw : Z) (s : Sample.state) (u : U) :
  0 <= raw < 65536 ->
  Z.land raw 3 = TIME ->
  let v := Z.shiftr raw 2 in
  let interval := sample_interval divemode in
  let t := Sample.time s in
  (interval < v ->
   sample_decode callback interval raw s u
   = (Sample.mk (UInt.add (UInt.add t interval) (v - interval))
                0 (Sample.gasmix s) (Sample.gasmix_previous s) (Sample.temperature s)
                (Sample.have_temperature s) 1,
      call callback (SampleDepth 0%float)
           (call callback (SampleTime (UInt.mul (UInt.add t interval) 1000)) u)) /\
   (0 <= t -> (t + interval) * 1000 < UInt.modulus ->
    UInt.mul (UInt.add t interval) 1000 = (t + interval) * 1000)) /\
  (v <= interval ->
   sample_decode callback interval raw s u
   = (Sample.mk (UInt.add t v)
                0 (Sample.gasmix s) (Sample.gasmix_previous s) (Sample.temperature s)
                (Sample.have_temperature s) 1,
      u)).
Proof.
  intros R T v interval t.
  pose proof (payload_range raw R) as Rv. fold v in Rv.
  pose proof (sample_interval_range divemode) as Ri. fold interval in Ri.
  rewrite (sample_decode_time callback interval raw s u R T). fold v. fold t.
  split.
  - intros Hgt. destruct (Z.ltb_spec interval v) as [_|]; [|lia]. split.
    + rewrite (UIntFacts.sub_small v interval) by (unfold UInt.modulus; lia). reflexivity.
    + intros Ht Hsmall. unfold UInt.modulus in *.
      rewrite (UIntFacts.add_small t interval) by (unfold UInt.modulus; lia).
      apply UIntFacts.mul_small. unfold UInt.modulus. lia.
  - intros Hle. destruct (Z.ltb_spec interval v) as [|_]; [lia|]. reflexivity.
Qed.

Lemma C3_time_word_witness :
  sample_decode (Some record_event) (sample_interval SCUBA) 62
                (Sample.mk 100 7 0 0 0 0 0) []
  = (Sample.mk 115 0 0 0 0 0 1, [SampleTime 105000; SampleDepth 0%float]).
Proof.
  apply (C3_time_word (Some record_event) SCUBA 62 (Sample.mk 100 7 0 0 0 0 0) []);
    [lia | reflexivity | vm_compute; reflexivity].
Defined.

(** ** Completing a record *)

Section Complete.

Context {U : Type}.
Variable callback : option (sample_event -> U -> U).

Lemma deliver_app e1 e2 (u : U) :
  deliver callback (e1 ++ e2) u = deliver callback e2 (deliver callback e1 u).
Proof. apply fold_left_app. Qed.

Lemma sample_complete_record divemode s (u : U) :
  Sample.complete s <> 0 ->
  sample_complete callback divemode s u
  = (record_state divemode s, deliver callback (record_events divemode s) u).
Proof.
  intros Hc. unfold sample_complete, record_state, record_events, gas_change.
  destruct (Z.eqb_spec (Sample.complete s) 0) as [E|_]; [contradiction|]. cbn [negb].
  destruct (Z.eqb_spec (Sample.have_temperature s) 0) as [E|N]; cbn [negb];
    destruct ((divemode =? SCUBA) || (divemode =? NITROX)); cbn [andb];
    try destruct (Sample.gasmix s =? Sample.gasmix_previous s); cbn [negb];
    try rewrite E; reflexivity.
Qed.

Lemma sample_complete_idle divemode s (u : U) :
  Sample.complete s = 0 -> sample_complete callback divemode s u = (s, u).
Proof. intros E. unfold sample_complete. now rewrite E. Qed.

End Complete.

(** ** The events of a walk, whatever the callback *)

Ltac split_conditions :=
  repeat match goal with
         | |- context [if ?b then _ else _] => destruct b
         end.

Lemma sample_step_deliver {U : Type} (callback : option (sample_event -> U -> U))
    interval divemode raw s (u : U) :
  sample_step callback interval divemode raw s u
  = (step_state interval divemode raw s,
     deliver callback (step_events interval divemode raw s) u).
Proof.
  unfold step_state, step_events, sample_step, sample_decode, sample_complete.
  cbn [Sample.time Sample.depth Sample.gasmix Sample.gasmix_previous Sample.temperature
       Sample.have_temperature Sample.complete].
  split_conditions; reflexivity.
Qed.

Lemma walk_deliver {U : Type} (callback : option (sample_event -> U -> U))
    interval divemode ws :
  forall s (u : U),
    walk callback interval divemode ws (s, u)
    = (walk_state interval divemode ws s,
       deliver callback (walk_events interval divemode ws s) u).
Proof.
  induction ws as [|raw ws IH]; intros s u; [reflexivity|].
  unfold walk in *. cbn [fold_left fst snd walk_state walk_events].
  rewrite sample_step_deliver, IH. now rewrite deliver_app.
Qed.

Lemma walk_events_app interval divemode ws1 ws2 s :
  walk_events interval divemode (ws1 ++ ws2) s
  = walk_events interval divemode ws1 s
    ++ walk_events interval divemode ws2 (walk_state interval divemode ws1 s).
Proof.
  revert s. induction ws1 as [|raw ws1 IH]; intros s; [reflexivity|].
  cbn [app walk_events walk_state]. now rewrite IH, app_assoc.
Qed.

Lemma deliver_record events0 events :
  deliver (Some record_event) events events0 = events0 ++ events.
Proof.
  revert events0. induction events as [|e events IH]; intros events0.
  - now rewrite app_nil_r.
  - unfold deliver in *. cbn [fold_left call]. rewrite IH. unfold record_event.
    now rewrite <- app_assoc.
Qed.

Lemma deliver_null {U : Type} events (u : U) : deliver None events u = u.
Proof. induction events as [|e events IH]; [reflexivity|]. exact IH. Qed.

(** The walk of the parser, for every callback and fuel that covers the
    sample region. *)
Lemma samples_foreach_deliver {U : Type} (callback : option (sample_event -> U -> U))
    B p fuel (u : U) :
  constructs B p ->
  Z.of_nat (length B) - samples_start p < 2 * Z.of_nat fuel + 2 ->
  samples_foreach_fuel callback fuel p u
  = Returns (DC_STATUS_SUCCESS,
             deliver callback
                     (walk_events (sample_interval (divemode p)) (divemode p)
                                  (sample_words B p) Sample.initial) u).
Proof.
  intros C Hfuel. apply constructs_well_formed in C.
  rewrite (samples_foreach_fuel_walk callback B p C fuel u Hfuel).
  now rewrite walk_deliver.
Qed.

Lemma samples_foreach_fuel_enough {U : Type} (callback : option (sample_event -> U -> U))
    B p (u : U) :
  constructs B p ->
  cressi_goa_parser_samples_foreach callback p u
  = Returns (DC_STATUS_SUCCESS,
             deliver callback
                     (walk_events (sample_interval (divemode p)) (divemode p)
                                  (sample_words B p) Sample.initial) u).
Proof.
  intros C. unfold cressi_goa_parser_samples_foreach.
  pose proof (constructs_well_formed _ _ C) as W.
  rewrite (wf_base _ _ W). cbn [data].
  apply samples_foreach_deliver; [assumption|].
  pose proof (wf_length _ _ W). pose proof (wf_header_range _ _ W).
  pose proof (well_formed_layout_headersize _ _ W). unfold samples_start. lia.
Qed.

Lemma samples_events_walk B p :
  constructs B p ->
  samples_events p
  = Returns (DC_STATUS_SUCCESS,
             walk_events (sample_interval (divemode p)) (divemode p)
                         (sample_words B p) Sample.initial).
Proof.
  intros C. unfold samples_events.
  rewrite (samples_foreach_fuel_enough _ B p [] C). now rewrite deliver_record.
Qed.

(** ** Temperature words and completing words *)

Lemma words_are_words bs : Forall is_word (words bs).
Proof.
  assert (forall n bs, (length bs <= n)%nat -> Forall is_word (words bs)) as H.
  { induction n as [|n IH]; intros [|lo [|hi rest]] Hn; cbn [words];
      try (constructor; fail); cbn [length] in Hn; [lia|].
    constructor.
    - unfold is_word. pose proof (byte_val_range lo). pose proof (byte_val_range hi). lia.
    - apply IH. lia. }
  now apply (H (length bs)).
Qed.

Lemma words_odd_leftover bs b :
  Nat.Even (length bs) -> words (bs ++ [b]) = words bs.
Proof.
  intros [k Hk]. revert bs Hk. induction k as [|k IH]; intros bs Hk.
  - destruct bs; [reflexivity|discriminate].
  - destruct bs as [|lo [|hi rest]]; cbn in Hk; try lia.
    cbn [app words]. f_equal. apply IH. lia.
Qed.

Lemma step_temperature interval divemode raw s :
  is_word raw -> Z.land raw 3 = TEMPERATURE -> Sample.complete s = 0 ->
  step_events interval divemode raw s = [] /\
  step_state interval divemode raw s = set_temperature s (Z.shiftr raw 2).
Proof.
  intros R T Hc. unfold step_events, step_state, sample_step.
  rewrite (sample_decode_temperature _ interval raw s [] R T).
  rewrite sample_complete_idle by exact Hc. split; [reflexivity|].
  unfold set_temperature. now rewrite Hc.
Qed.

(** A word of another type completes a record: the update may emit the
    synthetic surface record, never a gas-mix change, leaves the gas-mix
    index at 0 or 1 when it changes it, and the record follows. *)
Lemma step_completing interval divemode raw s :
  is_word raw -> Z.land raw 3 <> TEMPERATURE ->
  exists synthetic s',
    sample_decode (Some record_event) interval raw s [] = (s', synthetic) /\
    Sample.complete s' = 1 /\
    existsb is_gasmix_event synthetic = false /\
    Sample.gasmix_previous s' = Sample.gasmix_previous s /\
    Sample.temperature s' = Sample.temperature s /\
    Sample.have_temperature s' = Sample.have_temperature s /\
    (Sample.gasmix s' = Sample.gasmix s \/ 0 <= Sample.gasmix s' <= 1) /\
    step_events interval divemode raw s = synthetic ++ record_events divemode s' /\
    step_state interval divemode raw s = record_state divemode s'.
Proof.
  intros R T.
  assert (forall s' synthetic,
             sample_decode (Some record_event) interval raw s [] = (s', synthetic) ->
             Sample.complete s' = 1 ->
             step_events interval divemode raw s = synthetic ++ record_events divemode s' /\
             step_state interval divemode raw s = record_state divemode s') as Hrec.
  { intros s' synthetic Hd Hc. unfold step_events, step_state, sample_step.
    rewrite Hd, sample_complete_record by lia. cbn [fst snd].
    now rewrite deliver_record. }
  assert (exists s' synthetic,
             sample_decode (Some record_event) interval raw s [] = (s', synthetic) /\
             Sample.complete s' = 1 /\
             existsb is_gasmix_event synthetic = false /\
             Sample.gasmix_previous s' = Sample.gasmix_previous s /\
             Sample.temperature s' = Sample.temperature s /\
             Sample.have_temperature s' = Sample.have_temperature s /\
             (Sample.gasmix s' = Sample.gasmix s \/ 0 <= Sample.gasmix s' <= 1))
    as (s' & synthetic & Hd & Hc & Hrest).
  { destruct (word_type_cases raw) as [Ty|[Ty|[Ty|Ty]]]; [| | |contradiction].
    - eexists _, _. split; [apply sample_decode_depth; auto|].
      cbn [Sample.complete Sample.gasmix Sample.gasmix_previous Sample.temperature
           Sample.have_temperature existsb].
      repeat apply conj; try reflexivity. right. apply gasmix_bit_range.
    - eexists _, _. split; [apply sample_decode_depth; auto|].
      cbn [Sample.complete Sample.gasmix Sample.gasmix_previous Sample.temperature
           Sample.have_temperature existsb].
      repeat apply conj; try reflexivity. right. apply gasmix_bit_range.
    - pose proof (sample_decode_time (Some record_event) interval raw s [] R Ty) as Hd.
      destruct (interval <? Z.shiftr raw 2); eexists _, _; (split; [exact Hd|]);
        cbn [Sample.complete Sample.gasmix Sample.gasmix_previous Sample.temperature
             Sample.have_temperature existsb call record_event app is_gasmix_event orb];
        repeat apply conj; try reflexivity; left; reflexivity. }
  destruct (Hrec s' synthetic Hd Hc) as [He Hs].
  exists synthetic, s'. rewrite He, Hs. tauto.
Qed.

Lemma record_events_no_gasmix divemode s :
  gas_change divemode s = false ->
  existsb is_gasmix_event (record_events divemode s) = false.
Proof.
  intros G. unfold record_events. rewrite G.
  destruct (Sample.have_temperature s =? 0); reflexivity.
Qed.

Lemma existsb_app_false {A : Type} (f : A -> bool) l1 l2 :
  existsb f l1 = false -> existsb f l2 = false -> existsb f (l1 ++ l2) = false.
Proof. intros H1 H2. now rewrite existsb_app, H1, H2. Qed.

(** Outside the Scuba and Nitrox modes no walk reports a gas-mix change. *)
Lemma walk_events_no_gasmix interval divemode ws :
  (divemode =? SCUBA) || (divemode =? NITROX) = false ->
  Forall is_word ws ->
  forall s, Sample.complete s = 0 ->
            existsb is_gasmix_event (walk_events interval divemode ws s) = false /\
            Sample.complete (walk_state interval divemode ws s) = 0.
Proof.
  intros Hdm Hws. induction Hws as [|raw ws R _ IH]; intros s Hc; [now split|].
  cbn [walk_events walk_state].
  destruct (Z.eq_dec (Z.land raw 3) TEMPERATURE) as [T|T].
  - destruct (step_temperature interval divemode raw s R T Hc) as [-> ->].
    apply IH. exact Hc.
  - destruct (step_completing interval divemode raw s R T)
      as (synthetic & s' & _ & _ & Hsyn & _ & _ & _ & _ & -> & ->).
    assert (gas_change divemode s' = false) as G by (unfold gas_change; now rewrite Hdm).
    destruct (IH (record_state divemode s') eq_refl) as [IH1 IH2].
    split; [|exact IH2].
    apply existsb_app_false; [apply existsb_app_false|];
      auto using record_events_no_gasmix.
Qed.

(** While only Temperature words have been seen nothing is emitted and
    the gas-mix indices are the initial ones. *)
Lemma walk_temperatures interval divemode temps :
  Forall is_word temps ->
  Forall (fun raw => Z.land raw 3 = TEMPERATURE) temps ->
  forall s, Sample.complete s = 0 ->
            walk_events interval divemode temps s = [] /\
            Sample.complete (walk_state interval divemode temps s) = 0 /\
            Sample.gasmix (walk_state interval divemode temps s) = Sample.gasmix s /\
            Sample.gasmix_previous (walk_state interval divemode temps s)
            = Sample.gasmix_previous s.
Proof.
  intros Hws. induction Hws as [|raw ws R _ IH]; intros Ht s Hc; [now repeat split|].
  inversion Ht as [|? ? T Ht']; subst.
  cbn [walk_events walk_state].
  destruct (step_temperature interval divemode raw s R T Hc) as [-> ->].
  apply (IH Ht' (set_temperature s (Z.shiftr raw 2)) Hc).
Qed.

(** The first completing word of a Scuba or Nitrox walk reports the gas
    mix after its Depth event. *)
Lemma first_record_reports_gasmix interval divemode temps raw :
  divemode = SCUBA \/ divemode = NITROX ->
  Forall is_word temps -> is_word raw ->
  Forall (fun w => Z.land w 3 = TEMPERATURE) temps ->
  Z.land raw 3 <> TEMPERATURE ->
  exists first g,
    walk_events interval divemode (temps ++ [raw]) Sample.initial
    = first ++ [SampleGasmix g] /\
    existsb is_gasmix_event first = false.
Proof.
  intros Hdm Wt Wr Ht Hr.
  destruct (walk_temperatures interval divemode temps Wt Ht Sample.initial eq_refl)
    as (He & Hc & Hg & Hp).
  rewrite walk_events_app, He. cbn [app walk_events].
  set (s0 := walk_state interval divemode temps Sample.initial) in *.
  destruct (step_completing interval divemode raw s0 Wr Hr)
    as (synthetic & s' & _ & _ & Hsyn & Hp' & _ & _ & Hg' & -> & _).
  assert (gas_change divemode s' = true) as G.
  { unfold gas_change. rewrite Hp', Hp. cbn [Sample.gasmix_previous Sample.initial].
    assert ((divemode =? SCUBA) || (divemode =? NITROX) = true) as ->
        by (destruct Hdm as [-> | ->]; reflexivity).
    cbn [andb]. apply negb_true_iff, Z.eqb_neq.
    destruct Hg' as [E|E]; [rewrite E, Hg; cbn; lia | lia]. }
  unfold record_events. rewrite G, app_nil_r.
  exists (synthetic ++ [SampleTime (UInt.mul (Sample.time s') 1000)]
          ++ (if Sample.have_temperature s' =? 0 then []
              else [SampleTemperature (to_double (Sample.temperature s') / 10)%float])
          ++ [SampleDepth (to_double (Sample.depth s') / 10)%float]),
    (Sample.gasmix s').
  split.
  - now rewrite <- !app_assoc.
  - apply existsb_app_false; [exact Hsyn|].
    destruct (Sample.have_temperature s' =? 0); reflexivity.
Qed.

(** C4. During the walk of a successfully constructed context a record
    is completed by a Depth, DepthAlt or Time word and never by a
    Temperature word, which only stores the pending temperature.  The
    completed record is, in this order: a Time event of accumulator *
    1000 ms (in [unsigned int] arithmetic); a Temperature event of
    value/10 if a temperature is pending, and the pending flag is cleared;
    a Depth event of depth/10; a gas-mix event if the mode is Scuba or
    Nitrox and the index differs from the one reported last, which it then
    becomes.  The first completed record of a Scuba or Nitrox walk ends
    with a gas-mix event; a Freedive or Gauge walk has none. *)
Theorem C4_completed_record (B : list byte) (p : cressi_goa_parser_t) :
  constructs B p ->
  let dm := divemode p in
  let interval := sample_interval dm in
  (forall (U : Type) (callback : option (sample_event -> U -> U)) s (u : U),
      Sample.complete s <> 0 ->
      sample_complete callback dm s u
      = (record_state dm s, deliver callback (record_events dm s) u)) /\
  (forall (U : Type) (callback : option (sample_event -> U -> U)) s (u : U),
      Sample.complete s = 0 -> sample_complete callback dm s u = (s, u)) /\
  (forall raw s,
      is_word raw -> Sample.complete s = 0 -> Z.land raw 3 = TEMPERATURE ->
      step_events interval dm raw s = [] /\
      step_state interval dm raw s = set_temperature s (Z.shiftr raw 2)) /\
  (forall raw s,
      is_word raw -> Z.land raw 3 <> TEMPERATURE ->
      exists synthetic s',
        sample_decode (Some record_event) interval raw s [] = (s', synthetic) /\
        Sample.complete s' = 1 /\
        existsb is_gasmix_event synthetic = false /\
        step_events interval dm raw s = synthetic ++ record_events dm s' /\
        step_state interval dm raw s = record_state dm s') /\
  samples_events p
  = Returns (DC_STATUS_SUCCESS, walk_events interval dm (sample_words B p) Sample.initial) /\
  (dm = SCUBA \/ dm = NITROX ->
   forall temps raw rest,
     sample_words B p = temps ++ raw :: rest ->
     Forall (fun w => Z.land w 3 = TEMPERATURE) temps ->
     Z.land raw 3 <> TEMPERATURE ->
     exists first g,
       walk_events interval dm (temps ++ [raw]) Sample.initial = first ++ [SampleGasmix g] /\
       existsb is_gasmix_event first = false) /\
  (dm = FREEDIVE \/ dm = GAUGE ->
   existsb is_gasmix_event (walk_events interval dm (sample_words B p) Sample.initial)
   = false) /\
  (forall s,
      0 <= Sample.time s -> Sample.time s * 1000 < UInt.modulus ->
      hd_error (record_events dm s) = Some (SampleTime (Sample.time s * 1000))).
Proof.
  intros C dm interval. repeat apply conj;
    [| | | | | | | intros s H0 H1; cbn [record_events app hd_error];
                   now rewrite UIntFacts.mul_small by lia].
  - intros U callback s u Hc. now apply sample_complete_record.
  - intros U callback s u Hc. now apply sample_complete_idle.
  - intros raw s R Hc T. now apply step_temperature.
  - intros raw s R T.
    destruct (step_completing interval dm raw s R T)
      as (synthetic & s' & Hd & Hc & Hsyn & _ & _ & _ & _ & He & Hs).
    exists synthetic, s'. auto.
  - now apply samples_events_walk.
  - intros Hdm temps raw rest Hwords Ht Hr.
    pose proof (words_are_words (skipn (Z.to_nat (samples_start p)) B)) as Hw.
    fold (sample_words B p) in Hw. rewrite Hwords in Hw.
    apply Forall_app in Hw as [Wt Wr]. inversion Wr; subst.
    now apply first_record_reports_gasmix.
  - intros Hdm.
    apply walk_events_no_gasmix; [|apply words_are_words|reflexivity].
    destruct Hdm as [-> | ->]; reflexivity.
Qed.

Lemma C4_completed_record_witness :
  constructs scuba_buffer scuba_parser /\
  samples_events scuba_parser
  = Returns (DC_STATUS_SUCCESS,
             [SampleTime 5000; SampleDepth 0%float;
              SampleTime 15000; SampleDepth 0%float; SampleGasmix 0;
              SampleTime 20000; SampleTemperature 1%float; SampleDepth 10%float]).
Proof.
  split; [by_construction|].
  apply (C4_completed_record scuba_buffer scuba_parser). by_construction.
Defined.

(** ** The end of the sample region *)

Lemma words_length bs : length (words bs) = (length bs / 2)%nat.
Proof.
  assert (forall n bs, (length bs <= n)%nat -> length (words bs) = (length bs / 2)%nat) as H.
  { induction n as [|n IH]; intros [|lo [|hi rest]] Hn; cbn [words length];
      try reflexivity; cbn [length] in Hn; [lia|].
    rewrite IH by lia.
    change (S (S (length rest))) with (2 + length rest)%nat.
    replace (2 + length rest)%nat with (length rest + 1 * 2)%nat by lia.
    rewrite Nat.div_add by lia. lia. }
  now apply (H (length bs)).
Qed.

Lemma walk_state_idle interval divemode ws :
  Forall is_word ws ->
  forall s, Sample.complete s = 0 ->
            Sample.complete (walk_state interval divemode ws s) = 0.
Proof.
  intros Hws. induction Hws as [|raw ws R _ IH]; intros s Hc; [exact Hc|].
  cbn [walk_state].
  destruct (Z.eq_dec (Z.land raw 3) TEMPERATURE) as [T|T].
  - destruct (step_temperature interval divemode raw s R T Hc) as [_ ->].
    apply IH. exact Hc.
  - destruct (step_completing interval divemode raw s R T)
      as (synthetic & s' & _ & _ & _ & _ & _ & _ & _ & _ & ->).
    apply IH. reflexivity.
Qed.

(** Temperature words at the end of the region leave no event. *)
Lemma walk_events_trailing_temperatures interval divemode ws temps :
  Forall is_word (ws ++ temps) ->
  Forall (fun w => Z.land w 3 = TEMPERATURE) temps ->
  walk_events interval divemode (ws ++ temps) Sample.initial
  = walk_events interval divemode ws Sample.initial.
Proof.
  intros Hw Ht. apply Forall_app in Hw as [Hws Hwt].
  rewrite walk_events_app.
  destruct (walk_temperatures interval divemode temps Hwt Ht
              (walk_state interval divemode ws Sample.initial)) as [-> _].
  - now apply walk_state_idle.
  - apply app_nil_r.
Qed.

Lemma byte_at_app B b i :
  0 <= i < Z.of_nat (length B) -> byte_at (B ++ [b]) i = byte_at B i.
Proof. intros H. unfold byte_at. f_equal. apply app_nth1. lia. Qed.

(** Two contexts constructed from a buffer and from the same buffer with
    one more byte have the same header size, layout and dive mode. *)
Lemma constructs_one_more_byte B b p p' :
  constructs B p -> constructs (B ++ [b]) p' ->
  headersize p' = headersize p /\ layout p' = layout p /\ divemode p' = divemode p.
Proof.
  intros C C'. apply constructs_well_formed in C, C'.
  pose proof (wf_length _ _ C) as Hlen. pose proof (well_formed_layout_headersize _ _ C) as HL.
  pose proof (byte_at_range B 0) as R0. pose proof (byte_at_range B 1) as R1.
  pose proof (wf_headersize _ _ C) as Hhs.
  assert (headersize p' = headersize p) as E1.
  { rewrite (wf_headersize _ _ C'), Hhs. rewrite !byte_at_app by lia. reflexivity. }
  assert (divemode p' = divemode p) as E2.
  { rewrite (wf_mode_byte _ _ C'), (wf_mode_byte _ _ C).
    rewrite (byte_at_app B b 0) by lia. apply byte_at_app.
    pose proof (wf_header_range _ _ C). lia. }
  repeat split; auto.
  rewrite (wf_layout _ _ C'), (wf_layout _ _ C). now rewrite E2.
Qed.

(** C8. On a successfully constructed context the sample walk, whatever
    the callback, returns success, and the calls it makes are those of
    the loop body applied in turn to the 16-bit words that start at
    header size + layout header size (none when the callback is null);
    there are as many words as whole pairs of bytes.  A byte left over after the last pair is not read: a
    buffer with one more byte after an even-sized sample region has the
    same events.  Temperature words at the end of the region leave no
    event. *)
Theorem C8_walk_never_fails (B : list byte) (p : cressi_goa_parser_t) :
  constructs B p ->
  let dm := divemode p in
  let interval := sample_interval dm in
  let region := skipn (Z.to_nat (headersize p + Layout.headersize (layout p))) B in
  (forall (U : Type) (callback : option (sample_event -> U -> U)) (u : U),
      cressi_goa_parser_samples_foreach callback p u
      = Returns (DC_STATUS_SUCCESS,
                 deliver callback (walk_events interval dm (words region) Sample.initial) u)) /\
  (forall (U : Type) (u : U),
      cressi_goa_parser_samples_foreach None p u = Returns (DC_STATUS_SUCCESS, u)) /\
  samples_events p
  = Returns (DC_STATUS_SUCCESS, walk_events interval dm (words region) Sample.initial) /\
  length (words region) = (length region / 2)%nat /\
  (forall b p',
      Nat.Even (length region) -> constructs (B ++ [b]) p' ->
      samples_events p' = samples_events p) /\
  (forall ws temps,
      words region = ws ++ temps ->
      Forall (fun w => Z.land w 3 = TEMPERATURE) temps ->
      samples_events p
      = Returns (DC_STATUS_SUCCESS, walk_events interval dm ws Sample.initial)).
Proof.
  intros C dm interval region.
  assert (words region = sample_words B p) as Hregion by reflexivity.
  rewrite Hregion. repeat apply conj.
  - intros U callback u. now apply samples_foreach_fuel_enough.
  - intros U u. rewrite (samples_foreach_fuel_enough _ B p u C). now rewrite deliver_null.
  - now apply samples_events_walk.
  - rewrite <- Hregion. apply words_length.
  - intros b p' Heven C'.
    destruct (constructs_one_more_byte B b p p' C C') as (E1 & E2 & E3).
    rewrite (samples_events_walk _ _ C), (samples_events_walk _ _ C').
    rewrite E3. fold dm. fold interval. do 2 f_equal.
    unfold sample_words, samples_start. rewrite E1, E2.
    pose proof (constructs_well_formed _ _ C) as W.
    pose proof (wf_length _ _ W). pose proof (wf_header_range _ _ W).
    pose proof (well_formed_layout_headersize _ _ W).
    rewrite skipn_app.
    replace (Z.to_nat (headersize p + Layout.headersize (layout p)) - length B)%nat
      with 0%nat by lia.
    cbn [skipn]. fold region. now rewrite (words_odd_leftover region b Heven).
  - intros ws temps Hsplit Ht.
    rewrite (samples_events_walk _ _ C). fold dm. fold interval.
    rewrite Hsplit. rewrite walk_events_trailing_temperatures; [reflexivity| |exact Ht].
    rewrite <- Hsplit, <- Hregion. apply words_are_words.
Qed.

Lemma C8_walk_never_fails_witness :
  constructs truncated_buffer truncated_parser /\
  constructs (truncated_buffer ++ [byte_of_Z 7]) scuba_parser /\
  samples_events scuba_parser = samples_events truncated_parser.
Proof.
  split; [by_construction|]. split; [by_construction|].
  destruct (C8_walk_never_fails truncated_buffer truncated_parser ltac:(by_construction))
    as (_ & _ & _ & _ & Hleftover & _).
  apply (Hleftover (byte_of_Z 7) scuba_parser).
  - exists 3%nat. reflexivity.
  - by_construction.
Defined.

(** ** Determinism and idempotence *)

Lemma operation_is_init op : op = Init \/ op <> Init.
Proof. destruct op; [now left| | |]; right; discriminate. Qed.

Ltac split_init :=
  repeat match goal with
         | |- context [if ?b then _ else _] => destruct b
         | |- context [bind ?m _] => destruct m; cbn [bind]
         | |- context [match nth_error ?l ?n with _ => _ end] => destruct (nth_error l n)
         end.

Lemma init_keeps_buffer q st log q' :
  cressi_goa_init q = Returns (st, log, q') ->
  base q' = base q /\ version q' = version q.
Proof.
  unfold cressi_goa_init. split_init; intros H; try discriminate H;
    injection H as <- <- <-; split; reflexivity.
Qed.

(** Decoding the header again, on the object the first decoding left,
    gives the same status, the same diagnostic and the same object. *)
Lemma init_idempotent q st log q' :
  cressi_goa_init q = Returns (st, log, q') ->
  cressi_goa_init q' = Returns (st, log, q').
Proof.
  intros H. destruct (init_keeps_buffer _ _ _ _ H) as [Hb Hv].
  revert H. unfold cressi_goa_init. rewrite Hb, Hv.
  split_init; intros H; try discriminate H; try exact H;
    injection H as <- <- <-; reflexivity.
Qed.

Lemma constructed_init B p :
  constructs B p -> exists log, cressi_goa_init p = Returns (DC_STATUS_SUCCESS, log, p).
Proof.
  intros [_ (blank & log & Hcreate)].
  apply create_runs_init in Hcreate as (p' & Hinit & Hout).
  assert (p' = p) as -> by congruence.
  exists log. exact (init_idempotent _ _ _ _ Hinit).
Qed.

Lemma init_reads_buffer_only q1 q2 :
  base q1 = base q2 -> same_decoding (cressi_goa_init q1) (cressi_goa_init q2).
Proof.
  intros Hb. unfold cressi_goa_init. rewrite Hb.
  split_init; cbn; auto; repeat split; intros; discriminate.
Qed.

(** C9. Every operation is a function of the object it is applied to:
    performed twice in a row it gives the same observation both times
    (for header decoding the same context or the same failure, for a
    field query the same value, for the walk the same event sequence) and
    leaves the object the first run left; a field query, a datetime query
    and a walk leave the object as it was, and so does header decoding on
    a successfully constructed context. *)
Theorem C9_deterministic_idempotent :
  (forall op q,
      twice op q = (r <- perform op q ;; Returns (fst r, fst r, snd r))) /\
  (forall op q ob q',
      op <> Init -> perform op q = Returns (ob, q') -> q' = q) /\
  (forall B p op ob p',
      constructs B p -> perform op p = Returns (ob, p') -> p' = p) /\
  (forall q1 q2,
      base q1 = base q2 -> same_decoding (cressi_goa_init q1) (cressi_goa_init q2)).
Proof.
  assert (forall op q ob q', op <> Init -> perform op q = Returns (ob, q') -> q' = q) as Hframe.
  { intros op q ob q' Hop. destruct op; [contradiction| | |]; cbn [perform];
      match goal with |- context [bind ?m _] => destruct m end; cbn [bind];
      intros H; try discriminate H; now injection H as _ <-. }
  repeat apply conj.
  - intros op q. unfold twice.
    destruct (perform op q) as [[ob q']| |] eqn:E; cbn [bind fst snd]; try reflexivity.
    destruct op.
    + cbn [perform] in E |- *.
      destruct (cressi_goa_init q) as [[[st log] r]| |] eqn:Ei; cbn [bind fst snd] in E;
        try discriminate E.
      injection E as <- <-.
      rewrite (init_idempotent _ _ _ _ Ei). reflexivity.
    + assert (q' = q) as -> by (eapply Hframe; [|exact E]; discriminate).
      now rewrite E.
    + assert (q' = q) as -> by (eapply Hframe; [|exact E]; discriminate).
      now rewrite E.
    + assert (q' = q) as -> by (eapply Hframe; [|exact E]; discriminate).
      now rewrite E.
  - exact Hframe.
  - intros B p op ob p' C H.
    destruct (operation_is_init op) as [-> | Hop]; [|now apply (Hframe op p ob p')].
    destruct (constructed_init _ _ C) as (log & Hi).
    cbn [perform] in H. rewrite Hi in H. cbn [bind fst snd] in H. congruence.
  - exact init_reads_buffer_only.
Qed.

Lemma C9_deterministic_idempotent_witness :
  constructs scuba_buffer scuba_parser /\
  perform Init scuba_parser = Returns (InitResult DC_STATUS_SUCCESS [], scuba_parser) /\
  scuba_parser = scuba_parser /\
  twice (GetField DC_FIELD_GASMIX_COUNT 0 true) scuba_parser
  = Returns (FieldResult DC_STATUS_SUCCESS (Some (UIntValue 2)),
             FieldResult DC_STATUS_SUCCESS (Some (UIntValue 2)),
             scuba_parser).
Proof.
  destruct C9_deterministic_idempotent as (Htwice & _ & Hsame & _).
  split; [by_construction|]. split; [vm_compute; reflexivity|]. split.
  - apply (Hsame scuba_buffer scuba_parser Init (InitResult DC_STATUS_SUCCESS [])).
    + by_construction.
    + vm_compute. reflexivity.
  - rewrite Htwice. vm_compute. reflexivity.
Defined.

(** * Further properties of the code *)

(** ** The datetime query *)

(** X1. On a successfully constructed context the datetime query reads
    six bytes at header size + datetime offset, all inside the buffer:
    the year is the little-endian word, month, day, hour and minute are
    the next four bytes as they are (no validation), the second is 0 and
    there is no timezone; with a null pointer it stores nothing.  Both
    return success. *)
Theorem X1_datetime (B : list byte) (p : cressi_goa_parser_t) :
  constructs B p ->
  let at_ := headersize p + Layout.datetime (layout p) in
  cressi_goa_parser_get_datetime p true
  = Returns (DC_STATUS_SUCCESS,
             Some (Datetime.mk (word_at B at_) (byte_at B (at_ + 2)) (byte_at B (at_ + 3))
                               (byte_at B (at_ + 4)) (byte_at B (at_ + 5))
                               0 DC_TIMEZONE_NONE)) /\
  cressi_goa_parser_get_datetime p false = Returns (DC_STATUS_SUCCESS, None) /\
  at_ + 6 <= samples_start p.
Proof.
  intros C at_. apply constructs_well_formed in C.
  pose proof (wf_length _ _ C) as Hlen. pose proof (wf_header_range _ _ C) as Hhs.
  assert (Layout.datetime (layout p) = 12) as Hdt.
  { destruct (well_formed_modes _ _ C) as [[_ HL]|[[_ HL]|[[_ HL]|[_ HL]]]];
      rewrite HL; reflexivity. }
  pose proof (well_formed_layout_headersize _ _ C) as HL.
  repeat apply conj; [|reflexivity|unfold at_, samples_start; lia].
  unfold cressi_goa_parser_get_datetime.
  rewrite (read_word B p _ C) by lia.
  cbn [bind].
  assert (forall k, 0 <= k < 6 ->
                    deref (ptr_add (ptr_add (base_data (base p)) (headersize p))
                                   (Layout.datetime (layout p))) k
                    = Returns (byte_at B (at_ + k))) as Hread.
  { intros k Hk. rewrite deref_inside;
      rewrite (wf_base _ _ C); cbn [ptr_add base_data data position block].
    - unfold at_. now rewrite Z.add_0_l.
    - lia. }
  rewrite !Hread by lia. reflexivity.
Qed.

Lemma X1_datetime_witness :
  constructs gauge_buffer gauge_parser /\
  cressi_goa_parser_get_datetime gauge_parser true
  = Returns (DC_STATUS_SUCCESS, Some (Datetime.mk 0 0 0 0 0 0 DC_TIMEZONE_NONE)).
Proof.
  split; [by_construction|].
  destruct (X1_datetime gauge_buffer gauge_parser ltac:(by_construction)) as (H & _ & _).
  exact H.
Defined.

(** ** Construction on arbitrary input *)

(** The header decoder reads inside the buffer whatever the buffer is,
    also when its length does not fit the [unsigned int] it is copied
    to. *)
Lemma cressi_goa_init_returns q :
  exists st log q',
    cressi_goa_init q = Returns (st, log, q') /\
    ((st = DC_STATUS_DATAFORMAT /\ q' = q /\ exists d, log = [d]) \/
     (st = DC_STATUS_SUCCESS /\ log = [] /\ base q' = base q /\ version q' = version q)).
Proof.
  unfold cressi_goa_init, base_size, base_data.
  set (B := data (base q)). set (len := Z.of_nat (length B)).
  assert (0 <= len) as Hlen0 by (subst len; lia).
  assert (0 <= UInt.wrap len <= len) as Hsize.
  { unfold UInt.wrap, UInt.modulus. split.
    - apply Z.mod_pos_bound. lia.
    - apply Z.mod_le; lia. }
  set (size := UInt.wrap len) in *.
  destruct (Z.ltb_spec size 2) as [Hlt|Hge].
  { eexists _, _, _. split; [reflexivity|]. left. eauto. }
  rewrite !deref_inside by (cbn [position block]; fold len; lia). cbn [bind position block].
  change (0 + 0) with 0. change (0 + 1) with 1.
  pose proof (byte_at_range B 0) as R0. pose proof (byte_at_range B 1) as R1.
  set (id_len := byte_at B 0) in *. set (logbook_len := byte_at B 1) in *.
  change SZ_HEADER with 23.
  destruct ((id_len <? 9) || (logbook_len <? 23)) eqn:Ehdr.
  { eexists _, _, _. split; [reflexivity|]. left. eauto. }
  apply orb_false_iff in Ehdr as [E1 E2]. apply Z.ltb_ge in E1, E2.
  rewrite (UIntFacts.add_small 2 id_len) by (unfold UInt.modulus; lia).
  rewrite (UIntFacts.add_small (2 + id_len) logbook_len) by (unfold UInt.modulus; lia).
  destruct (Z.ltb_spec size (2 + id_len + logbook_len)) as [Hshort|Hfits].
  { eexists _, _, _. split; [reflexivity|]. left. eauto. }
  rewrite deref_inside by (cbn [ptr_add position block]; fold len; lia).
  cbn [bind ptr_add position block].
  pose proof (byte_at_range B (0 + 2 + id_len + 2)) as Rm.
  set (mode := byte_at B (0 + 2 + id_len + 2)) in *.
  change layouts_size with 4.
  destruct (Z.leb_spec 4 mode) as [Hbad|Hmode].
  { eexists _, _, _. split; [reflexivity|]. left. eauto. }
  rewrite layouts_lookup by lia.
  destruct (_ <? _).
  { eexists _, _, _. split; [reflexivity|]. left. eauto. }
  eexists _, _, _. split; [reflexivity|]. right. auto.
Qed.

(** X2. [cressi_goa_parser_create] has defined behaviour on every input:
    whatever the buffer (empty, truncated, of a length beyond [unsigned
    int]), whether [out] is null and whether the allocation succeeds, it
    returns, with one of four statuses; it stores an object through [out]
    exactly when the status is success, and the object stored owns the
    buffer it was given. *)
Theorem X2_create_returns (out : bool) (memory : option cressi_goa_parser_t)
    (B : list byte) :
  exists st log stored,
    cressi_goa_parser_create out memory B = Returns (st, log, stored) /\
    create_status st /\
    (stored = None <-> st <> DC_STATUS_SUCCESS) /\
    (out = false -> st = DC_STATUS_INVALIDARGS) /\
    (out = true -> memory = None -> st = DC_STATUS_NOMEMORY) /\
    (forall p, stored = Some p -> base p = mk_base B).
Proof.
  unfold cressi_goa_parser_create, create_status.
  destruct out; cbn [negb].
  - destruct memory as [blank|]; cbn [dc_parser_allocate].
    + destruct (cressi_goa_init_returns
                  (mk_parser (mk_base B) (layout blank) (headersize blank) (version blank)
                             (divemode blank)))
        as (st & log & q' & -> & [(-> & -> & d & ->)|(-> & -> & Hb & _)]); cbn [bind].
      * eexists _, _, _. split; [reflexivity|].
        intuition (try discriminate; try congruence).
      * cbn [base] in Hb. eexists _, _, _. split; [reflexivity|].
        intuition (try discriminate; try congruence).
    + eexists _, _, _. split; [reflexivity|].
      intuition (try discriminate; try congruence).
  - eexists _, _, _. split; [reflexivity|].
    intuition (try discriminate; try congruence).
Qed.

(** What construction returns, against the header decoder of the
    specification. *)
Lemma create_refines (B : list byte) (blank : cressi_goa_parser_t) :
  fits_uint B ->
  let q := mk_parser (mk_base B) (layout blank) (headersize blank) (version blank)
                     (divemode blank) in
  exists st log p',
    cressi_goa_init q = Returns (st, log, p') /\
    agrees_with_header_decoder q (st, log, p') /\
    cressi_goa_parser_create true (Some blank) B
    = Returns (st, log, match header_decoder B with inl _ => None | inr _ => Some p' end).
Proof.
  intros Hfit q.
  destruct (cressi_goa_init_refines q Hfit) as ([[st log] p'] & Hinit & Hagree).
  exists st, log, p'. repeat split; auto.
  unfold cressi_goa_parser_create. cbn [negb dc_parser_allocate]. fold q.
  rewrite Hinit. cbn [bind].
  unfold agrees_with_header_decoder in Hagree. unfold q in Hagree at 1. cbn [base data] in Hagree.
  destruct (header_decoder B) as [e|c].
  - destruct Hagree as (Hst & _ & _). cbn [fst snd] in Hst. now subst st.
  - now injection Hagree as -> -> ->.
Qed.

(** X3. A buffer shorter than 72 bytes (2 length bytes, a 9-byte
    identifier block, a 23-byte logbook block and the 38-byte Freedive
    header) is never accepted: construction fails with the data-format
    status, one diagnostic, and stores nothing; the empty buffer is the
    first case.  72 bytes can be enough. *)
Theorem X3_short_buffer_rejected :
  (forall (B : list byte) (blank : cressi_goa_parser_t),
      Z.of_nat (length B) < 72 ->
      exists d,
        cressi_goa_parser_create true (Some blank) B
        = Returns (DC_STATUS_DATAFORMAT, [d], None)) /\
  (forall B p, constructs B p -> 72 <= Z.of_nat (length B)) /\
  (length smallest_buffer = 72%nat /\ constructs smallest_buffer smallest_parser).
Proof.
  assert (forall B c, header_decoder B = inr c -> 72 <= Z.of_nat (length B)) as Hmin.
  { intros B c Hc.
    destruct (header_decoder_context _ _ Hc) as (Hm & _ & HL & _ & Hr & Hlen).
    pose proof (layouts_headersize _ Hm) as H38. rewrite <- HL in H38. lia. }
  split; [|split; [|split; [reflexivity|by_construction]]].
  - intros B blank Hshort.
    assert (fits_uint B) as Hfit by (unfold fits_uint, UInt.max; lia).
    destruct (create_refines B blank Hfit) as (st & log & p' & _ & Hagree & Hcreate).
    rewrite Hcreate. unfold agrees_with_header_decoder in Hagree.
    cbn [base data fst snd] in Hagree.
    destruct (header_decoder B) as [e|c] eqn:Hdec.
    + destruct Hagree as (-> & Hkind & _).
      destruct log as [|d [|d' log]]; try discriminate Hkind. now exists d.
    + specialize (Hmin _ _ Hdec). lia.
  - intros B p C. apply constructs_well_formed in C.
    pose proof (wf_length _ _ C). pose proof (wf_header_range _ _ C).
    pose proof (well_formed_layout_headersize _ _ C). lia.
Qed.

Lemma X3_short_buffer_rejected_witness :
  cressi_goa_parser_create true (Some blank_parser) []
  = Returns (DC_STATUS_DATAFORMAT, [Invalid_dive_length 0], None).
Proof.
  destruct X3_short_buffer_rejected as (H & _ & _).
  destruct (H [] blank_parser ltac:(cbn; lia)) as (d & Hd).
  rewrite Hd. vm_compute in Hd. congruence.
Defined.

(** ** Field queries on a constructed context *)

(** X4. On a successfully constructed context the DiveMode query always
    succeeds: Scuba and Nitrox are reported as open circuit, Gauge as
    gauge and Freedive as freedive; the data-format branch of the inner
    [switch] is never taken. *)
Theorem X4_divemode_field (B : list byte) (p : cressi_goa_parser_t) (flags : Z) :
  constructs B p ->
  cressi_goa_parser_get_field p DC_FIELD_DIVEMODE flags true
  = Returns (DC_STATUS_SUCCESS, Some (DivemodeValue (divemode_of_index (divemode p)))) /\
  (divemode p = byte_at B (2 + byte_at B 0 + 2)).
Proof.
  intros C. apply constructs_well_formed in C. split; [|apply (wf_mode_byte _ _ C)].
  rewrite (get_field_unfold B p _ flags true C). cbv zeta. unfold divemode_of_index.
  destruct (well_formed_modes _ _ C) as [[E _]|[[E _]|[[E _]|[E _]]]]; rewrite E; reflexivity.
Qed.

Lemma X4_divemode_field_witness :
  constructs gauge_buffer gauge_parser /\
  cressi_goa_parser_get_field gauge_parser DC_FIELD_DIVEMODE 0 true
  = Returns (DC_STATUS_SUCCESS, Some (DivemodeValue DC_DIVEMODE_GAUGE)).
Proof.
  split; [by_construction|].
  destruct (X4_divemode_field gauge_buffer gauge_parser 0 ltac:(by_construction)) as [H _].
  exact H.
Defined.

(** X5. On a successfully constructed context every field query other
    than GasMix[index] reads inside the buffer and returns, whatever the
    selector, the index and the pointer; its status is success or
    Unsupported, never a data-format error; and it stores a value exactly
    when the pointer is non-null and the status is success. *)
Theorem X5_field_query_returns (B : list byte) (p : cressi_goa_parser_t)
    (type : dc_field_type_t) (flags : Z) (value : bool) :
  constructs B p ->
  type <> DC_FIELD_GASMIX ->
  exists st stored,
    cressi_goa_parser_get_field p type flags value = Returns (st, stored) /\
    (st = DC_STATUS_SUCCESS \/ st = DC_STATUS_UNSUPPORTED) /\
    (stored <> None <-> st = DC_STATUS_SUCCESS /\ value = true).
Proof.
  intros C Hty. apply constructs_well_formed in C.
  rewrite (get_field_unfold B p type flags value C). cbv zeta.
  assert (forall st (v : field_value),
             st = DC_STATUS_SUCCESS ->
             exists st' stored,
               Returns (st, Some v) = Returns (st', stored) /\
               (st' = DC_STATUS_SUCCESS \/ st' = DC_STATUS_UNSUPPORTED) /\
               (stored <> None <-> st' = DC_STATUS_SUCCESS /\ true = true)) as Hok.
  { intros st v ->. eexists _, _. split; [reflexivity|]. split; [now left|].
    split; [auto|discriminate]. }
  assert (forall b,
             exists st' stored,
               Returns (DC_STATUS_UNSUPPORTED, @None field_value) = Returns (st', stored) /\
               (st' = DC_STATUS_SUCCESS \/ st' = DC_STATUS_UNSUPPORTED) /\
               (stored <> None <-> st' = DC_STATUS_SUCCESS /\ b = true)) as Hno.
  { intros b. eexists _, _. split; [reflexivity|]. split; [now right|].
    split; [congruence|intros [H _]; discriminate H]. }
  destruct value.
  - assert (forall off,
               field_offset type (layout p) = Some off -> off <> UNDEFINED ->
               array_uint16_le (ptr_add (ptr_add (base_data (base p)) (headersize p)) off)
               = Returns (word_at B (headersize p + off))) as Hread.
    { intros off Hoff Hdef.
      destruct (offsets_inside _ _ _ _ C Hoff Hdef) as [H0 H1].
      apply (read_word B p off C); lia. }
    destruct type; try contradiction; try apply Hno; try (now apply Hok);
      try (match goal with
           | |- context [if ?off =? UNDEFINED then _ else _] =>
               destruct (Z.eqb_spec off UNDEFINED) as [E|N];
               [apply Hno | rewrite (Hread off eq_refl N); cbn [bind]; now apply Hok]
           end).
    destruct (well_formed_modes _ _ C) as [[E _]|[[E _]|[[E _]|[E _]]]]; rewrite E;
      now apply Hok.
  - eexists _, _. split; [reflexivity|]. split; [now left|].
    split; [congruence|intros [_ H]; discriminate H].
Qed.

Lemma X5_field_query_returns_witness :
  constructs freedive_buffer freedive_parser /\
  exists st stored,
    cressi_goa_parser_get_field freedive_parser (DC_FIELD_OTHER 5) 0 true
    = Returns (st, stored) /\
    (st = DC_STATUS_SUCCESS \/ st = DC_STATUS_UNSUPPORTED) /\
    (stored <> None <-> st = DC_STATUS_SUCCESS /\ true = true).
Proof.
  split; [by_construction|].
  apply (X5_field_query_returns freedive_buffer freedive_parser (DC_FIELD_OTHER 5) 0 true);
    [by_construction | discriminate].
Defined.

(** X6. The gas-mix count and the gas-mix query agree: on a context
    whose layout has a gas-mix table, every index below the count that
    GasMixCount returns is answered by GasMix with a nonzero oxygen
    percentage (the byte itself, up to 255, is not checked against 100),
    and when the count is below 2 the slot at the count has oxygen byte
    0. *)
Theorem X6_gasmix_within_count (B : list byte) (p : cressi_goa_parser_t) :
  constructs B p ->
  Layout.gasmix (layout p) <> UNDEFINED ->
  exists n,
    cressi_goa_parser_get_field p DC_FIELD_GASMIX_COUNT 0 true
    = Returns (DC_STATUS_SUCCESS, Some (UIntValue n)) /\
    0 <= n <= NGASMIXES /\
    (forall index,
        0 <= index < n ->
        1 <= oxygen_byte B p index <= 255 /\
        cressi_goa_parser_get_field p DC_FIELD_GASMIX index true
        = Returns (DC_STATUS_SUCCESS,
                   Some (GasmixValue (gasmix_of_percentage (oxygen_byte B p index))))) /\
    (n < NGASMIXES -> oxygen_byte B p n = 0).
Proof.
  intros C Hdef. pose proof (constructs_well_formed _ _ C) as W.
  exists (gasmix_count B p).
  rewrite (get_field_unfold B p _ 0 true W). cbv zeta. unfold ngasmixes_of.
  destruct (Z.eqb_spec (Layout.gasmix (layout p)) UNDEFINED) as [E|_]; [contradiction|].
  split; [reflexivity|].
  assert (forall index,
             0 <= index < 2 ->
             cressi_goa_parser_get_field p DC_FIELD_GASMIX index true
             = Returns (DC_STATUS_SUCCESS,
                        Some (GasmixValue (gasmix_of_percentage (oxygen_byte B p index)))))
    as Hquery.
  { intros index Hi.
    rewrite (get_field_unfold B p _ index true W). cbv zeta.
    destruct (offsets_inside B p DC_FIELD_GASMIX _ W eq_refl Hdef) as [G0 G1].
    pose proof (wf_length _ _ W) as Hlen. pose proof (wf_header_range _ _ W) as Hhs.
    pose proof (wf_fits _ _ W) as Hfit. unfold UInt.max in Hfit.
    cbn [field_offset] in G0, G1.
    rewrite (UIntFacts.mul_small 2 index) by (unfold UInt.modulus; lia).
    rewrite (UIntFacts.add_small _ (2 * index)) by (unfold UInt.modulus; lia).
    rewrite (UIntFacts.add_small _ 1) by (unfold UInt.modulus; lia).
    rewrite (read_byte B p _ W) by lia. cbn [bind]. unfold oxygen_byte.
    now rewrite !Z.add_assoc. }
  pose proof (byte_at_range B (headersize p + Layout.gasmix (layout p) + 2 * 0 + 1)) as R0.
  pose proof (byte_at_range B (headersize p + Layout.gasmix (layout p) + 2 * 1 + 1)) as R1.
  fold (oxygen_byte B p 0) in R0. fold (oxygen_byte B p 1) in R1.
  unfold gasmix_count, NGASMIXES. cbn [leading_nonzero].
  destruct (Z.eqb_spec (oxygen_byte B p 0) 0) as [E0|N0].
  - repeat apply conj; lia.
  - destruct (Z.eqb_spec (oxygen_byte B p 1) 0) as [E1|N1].
    + repeat apply conj; try lia; [|intros _; exact E1].
      intros index Hi. assert (index = 0) as -> by lia. split; [lia|]. apply Hquery. lia.
    + repeat apply conj; try lia.
      intros index Hi. assert (index = 0 \/ index = 1) as [-> | ->] by lia;
        (split; [lia|apply Hquery; lia]).
Qed.

Lemma X6_gasmix_within_count_witness :
  constructs scuba_buffer scuba_parser /\
  cressi_goa_parser_get_field scuba_parser DC_FIELD_GASMIX 1 true
  = Returns (DC_STATUS_SUCCESS, Some (GasmixValue (gasmix_of_percentage 32))).
Proof.
  split; [by_construction|].
  destruct (X6_gasmix_within_count scuba_buffer scuba_parser ltac:(by_construction)
                                   ltac:(discriminate))
    as (n & Hn & _ & Hq & _).
  assert (n = 2) as -> by (vm_compute in Hn; congruence).
  apply (Hq 1). lia.
Defined.

(** ** What the queries depend on *)

Lemma nth_firstn_below {A : Type} (d : A) n :
  forall (l : list A) i, (i < n)%nat -> nth i (firstn n l) d = nth i l d.
Proof.
  induction n as [|n IH]; intros l i Hi; [lia|].
  destruct l as [|x l]; [reflexivity|].
  destruct i as [|i]; [reflexivity|]. cbn [firstn nth]. apply IH. lia.
Qed.

Lemma byte_at_prefix B1 B2 n i :
  firstn n B1 = firstn n B2 -> 0 <= i < Z.of_nat n -> byte_at B1 i = byte_at B2 i.
Proof.
  intros Hpre Hi. unfold byte_at. f_equal.
  rewrite <- (nth_firstn_below x00 n B1), <- (nth_firstn_below x00 n B2) by lia.
  now rewrite Hpre.
Qed.

Lemma word_at_prefix B1 B2 n i :
  firstn n B1 = firstn n B2 -> 0 <= i -> i + 1 < Z.of_nat n -> word_at B1 i = word_at B2 i.
Proof.
  intros Hpre H0 H1. unfold word_at.
  now rewrite (byte_at_prefix B1 B2 n i), (byte_at_prefix B1 B2 n (i + 1)) by (auto; lia).
Qed.

(** Two contexts constructed from buffers that agree up to the start of
    the sample region of the first have the same header size, layout and
    dive mode. *)
Lemma constructs_same_header B1 B2 p1 p2 :
  constructs B1 p1 -> constructs B2 p2 ->
  firstn (Z.to_nat (samples_start p1)) B1 = firstn (Z.to_nat (samples_start p1)) B2 ->
  headersize p2 = headersize p1 /\ layout p2 = layout p1 /\ divemode p2 = divemode p1.
Proof.
  intros C1 C2 Hpre. apply constructs_well_formed in C1, C2.
  pose proof (wf_header_range _ _ C1) as Hhs.
  pose proof (well_formed_layout_headersize _ _ C1) as HL.
  pose proof (wf_headersize _ _ C1) as Hsize.
  pose proof (byte_at_range B1 0) as R0. pose proof (byte_at_range B1 1) as R1.
  assert (forall i, 0 <= i < headersize p1 + 38 -> byte_at B2 i = byte_at B1 i) as Hbyte.
  { intros i Hi. symmetry. apply (byte_at_prefix _ _ _ _ Hpre). unfold samples_start. lia. }
  assert (headersize p2 = headersize p1) as E1.
  { rewrite (wf_headersize _ _ C2), Hsize. rewrite !Hbyte by lia. reflexivity. }
  assert (divemode p2 = divemode p1) as E2.
  { rewrite (wf_mode_byte _ _ C2), (wf_mode_byte _ _ C1).
    rewrite (Hbyte 0) by lia. apply Hbyte. lia. }
  repeat split; auto.
  rewrite (wf_layout _ _ C2), (wf_layout _ _ C1). now rewrite E2.
Qed.

(** X7. Field and datetime queries read the header region only: two
    successfully constructed contexts whose buffers agree on the bytes
    before the sample region answer every field query (GasMix for the
    indices 0 and 1 of a layout with a gas-mix table) and the datetime
    query alike, whatever the sample bytes are. *)
Theorem X7_fields_ignore_samples (B1 B2 : list byte) (p1 p2 : cressi_goa_parser_t) :
  constructs B1 p1 -> constructs B2 p2 ->
  firstn (Z.to_nat (samples_start p1)) B1 = firstn (Z.to_nat (samples_start p1)) B2 ->
  (forall type flags value,
      (type = DC_FIELD_GASMIX ->
       Layout.gasmix (layout p1) <> UNDEFINED /\ 0 <= flags < NGASMIXES) ->
      cressi_goa_parser_get_field p1 type flags value
      = cressi_goa_parser_get_field p2 type flags value) /\
  (forall datetime,
      cressi_goa_parser_get_datetime p1 datetime
      = cressi_goa_parser_get_datetime p2 datetime).
Proof.
  intros C1 C2 Hpre.
  destruct (constructs_same_header _ _ _ _ C1 C2 Hpre) as (E1 & E2 & E3).
  pose proof (constructs_well_formed _ _ C1) as W1.
  pose proof (constructs_well_formed _ _ C2) as W2.
  pose proof (wf_header_range _ _ W1) as Hhs.
  pose proof (well_formed_layout_headersize _ _ W1) as HL.
  pose proof (wf_length _ _ W1) as Hlen1. pose proof (wf_length _ _ W2) as Hlen2.
  rewrite E1, E2 in Hlen2.
  assert (forall i, 0 <= i < Layout.headersize (layout p1) ->
                    byte_at B1 (headersize p1 + i) = byte_at B2 (headersize p1 + i)) as Hbyte.
  { intros i Hi. apply (byte_at_prefix _ _ _ _ Hpre). unfold samples_start. lia. }
  assert (forall off, 0 <= off -> off + 2 <= Layout.headersize (layout p1) ->
                      word_at B1 (headersize p1 + off) = word_at B2 (headersize p1 + off))
    as Hword.
  { intros off H0 H2. unfold word_at.
    rewrite <- Z.add_assoc. now rewrite !Hbyte by lia. }
  assert (forall off, 0 <= off -> off + 2 <= Layout.headersize (layout p1) ->
                      array_uint16_le (ptr_add (ptr_add (base_data (base p1)) (headersize p1)) off)
                      = array_uint16_le
                          (ptr_add (ptr_add (base_data (base p2)) (headersize p1)) off))
    as Hread.
  { intros off H0 H2.
    rewrite (read_word B1 p1 off W1) by lia.
    rewrite <- E1. rewrite (read_word B2 p2 off W2) by (rewrite ?E2; lia).
    rewrite E1. now rewrite Hword. }
  split.
  - intros type flags value Hgas.
    rewrite (get_field_unfold B1 p1 type flags value W1).
    rewrite (get_field_unfold B2 p2 type flags value W2).
    cbv zeta. rewrite E1, E2, E3.
    destruct value; [|reflexivity].
    assert (forall off, field_offset type (layout p1) = Some off -> off <> UNDEFINED ->
                        0 <= off /\ off + 2 <= Layout.headersize (layout p1)) as Hoff.
    { intros off Ho Hd. destruct (offsets_inside _ _ _ _ W1 Ho Hd). lia. }
    destruct type; try reflexivity;
      try (match goal with
           | |- context [if ?off =? UNDEFINED then _ else _] =>
               destruct (Z.eqb_spec off UNDEFINED) as [E|N];
               [reflexivity
               | destruct (Hoff off eq_refl N) as [H0 H2]; now rewrite (Hread off H0 H2)]
           end).
    + unfold ngasmixes_of. rewrite E2.
      destruct (Z.eqb_spec (Layout.gasmix (layout p1)) UNDEFINED) as [E|N]; [reflexivity|].
      destruct (offsets_inside B1 p1 DC_FIELD_GASMIX _ W1 eq_refl N) as [G0 G1].
      unfold gasmix_count, oxygen_byte. rewrite E1, E2.
      rewrite <- !Z.add_assoc. now rewrite !Hbyte by lia.
    + destruct (Hgas eq_refl) as [N Hi]. unfold NGASMIXES in Hi.
      destruct (offsets_inside B1 p1 DC_FIELD_GASMIX _ W1 eq_refl N) as [G0 G1].
      pose proof (wf_fits _ _ W1) as Hfit. unfold UInt.max in Hfit.
      rewrite (UIntFacts.mul_small 2 flags) by (unfold UInt.modulus; lia).
      rewrite (UIntFacts.add_small _ (2 * flags)) by (unfold UInt.modulus; lia).
      rewrite (UIntFacts.add_small _ 1) by (unfold UInt.modulus; lia).
      rewrite (read_byte B1 p1 _ W1) by lia.
      rewrite <- E1. rewrite (read_byte B2 p2 _ W2) by (rewrite ?E1; lia).
      rewrite E1. now rewrite Hbyte by lia.
  - intros datetime. unfold cressi_goa_parser_get_datetime. rewrite E1, E2.
    destruct datetime; [|reflexivity].
    assert (Layout.datetime (layout p1) = 12) as Hdt.
    { destruct (well_formed_modes _ _ W1) as [[_ HL']|[[_ HL']|[[_ HL']|[_ HL']]]];
        rewrite HL'; reflexivity. }
    rewrite (Hread (Layout.datetime (layout p1))) by lia.
    assert (forall k, 0 <= k < 6 ->
                      deref (ptr_add (ptr_add (base_data (base p1)) (headersize p1))
                                     (Layout.datetime (layout p1))) k
                      = deref (ptr_add (ptr_add (base_data (base p2)) (headersize p1))
                                       (Layout.datetime (layout p1))) k) as Hk.
    { intros k Hk.
      rewrite !deref_inside;
        rewrite ?(wf_base _ _ W1), ?(wf_base _ _ W2);
        cbn [ptr_add base_data data position block]; try lia.
      f_equal. rewrite !Z.add_0_l, <- !Z.add_assoc. apply Hbyte. lia. }
    now rewrite !Hk by lia.
Qed.

Lemma X7_fields_ignore_samples_witness :
  constructs scuba_buffer scuba_parser /\
  constructs scuba_other_samples scuba_other_parser /\
  cressi_goa_parser_get_field scuba_parser DC_FIELD_GASMIX 1 true
  = cressi_goa_parser_get_field scuba_other_parser DC_FIELD_GASMIX 1 true.
Proof.
  split; [by_construction|]. split; [by_construction|].
  destruct (X7_fields_ignore_samples scuba_buffer scuba_other_samples
                                     scuba_parser scuba_other_parser
                                     ltac:(by_construction) ltac:(by_construction)
                                     ltac:(vm_compute; reflexivity)) as [H _].
  apply H. intros _. split; [discriminate|vm_compute; split; [discriminate|reflexivity]].
Defined.

(** X8. The sample walk reads the sample region only: two successfully
    constructed contexts with the same header size and dive mode whose
    buffers agree from the start of the sample region on make the same
    calls, whatever the identifier, logbook and mode-specific header
    hold. *)
Theorem X8_walk_ignores_header (B1 B2 : list byte) (p1 p2 : cressi_goa_parser_t) :
  constructs B1 p1 -> constructs B2 p2 ->
  headersize p1 = headersize p2 ->
  divemode p1 = divemode p2 ->
  skipn (Z.to_nat (samples_start p1)) B1 = skipn (Z.to_nat (samples_start p1)) B2 ->
  forall (U : Type) (callback : option (sample_event -> U -> U)) (u : U),
    cressi_goa_parser_samples_foreach callback p1 u
    = cressi_goa_parser_samples_foreach callback p2 u.
Proof.
  intros C1 C2 Ehs Edm Hregion U callback u.
  rewrite (samples_foreach_fuel_enough callback B1 p1 u C1).
  rewrite (samples_foreach_fuel_enough callback B2 p2 u C2).
  pose proof (constructs_well_formed _ _ C1) as W1.
  pose proof (constructs_well_formed _ _ C2) as W2.
  assert (layout p1 = layout p2) as EL
      by (rewrite (wf_layout _ _ W1), (wf_layout _ _ W2); now rewrite Edm).
  unfold sample_words. rewrite Hregion.
  unfold samples_start. now rewrite Ehs, Edm, EL.
Qed.

Lemma X8_walk_ignores_header_witness :
  constructs gauge_buffer gauge_parser /\
  constructs gauge_other_header gauge_other_parser /\
  samples_events gauge_parser = samples_events gauge_other_parser.
Proof.
  split; [by_construction|]. split; [by_construction|].
  apply (X8_walk_ignores_header gauge_buffer gauge_other_header gauge_parser gauge_other_parser);
    try by_construction; reflexivity.
Defined.

(** ** Acceptance depends on the header region *)

Lemma constructs_header_decoder B p :
  constructs B p ->
  header_decoder B = inr (mk_context (layout p) (headersize p) (divemode p)).
Proof.
  intros [Hfit (blank & log & Hcreate)].
  destruct (create_refines B blank Hfit) as (st & log' & p' & _ & Hagree & Hc).
  rewrite Hcreate in Hc. unfold agrees_with_header_decoder in Hagree.
  cbn [base data version] in Hagree.
  destruct (header_decoder B) as [e|c]; [discriminate Hc|].
  assert (p' = p) as -> by congruence.
  assert (p = mk_parser (mk_base B) (context_layout c) (context_header_size c)
                        (version blank) (context_mode c)) as -> by congruence.
  now destruct c.
Qed.

Lemma header_decoder_constructs B c v :
  fits_uint B ->
  header_decoder B = inr c ->
  constructs B (mk_parser (mk_base B) (context_layout c) (context_header_size c)
                          v (context_mode c)).
Proof.
  intros Hfit Hdec. split; [exact Hfit|].
  exists (mk_parser (mk_base []) no_layout 0 v 0).
  destruct (create_refines B (mk_parser (mk_base []) no_layout 0 v 0) Hfit)
    as (st & log & p' & _ & Hagree & Hc).
  unfold agrees_with_header_decoder in Hagree. cbn [base data version] in Hagree.
  rewrite Hdec in Hagree, Hc.
  exists log. rewrite Hc. congruence.
Qed.

Lemma header_decoder_prefix B1 B2 c :
  header_decoder B1 = inr c ->
  let n := context_header_size c + Layout.headersize (context_layout c) in
  firstn (Z.to_nat n) B1 = firstn (Z.to_nat n) B2 ->
  n <= Z.of_nat (length B2) ->
  header_decoder B2 = inr c.
Proof.
  intros Hdec n Hpre Hlen.
  destruct (header_decoder_context _ _ Hdec) as (Hm & Hmb & HL & Hhs & Hr & Hlen1).
  pose proof (layouts_headersize _ Hm) as H38. rewrite <- HL in H38.
  pose proof (byte_at_range B1 0) as R0. pose proof (byte_at_range B1 1) as R1.
  assert (forall i, 0 <= i < context_header_size c + 38 -> byte_at B2 i = byte_at B1 i)
    as Hbyte.
  { intros i Hi. symmetry. apply (byte_at_prefix _ _ _ _ Hpre). unfold n. lia. }
  revert Hdec. unfold header_decoder.
  rewrite (Hbyte 0), (Hbyte 1), (Hbyte (2 + byte_at B1 0 + 2)) by lia.
  fold n in Hlen1.
  rewrite <- Hmb, <- Hhs, <- HL.
  destruct (Z.ltb_spec (Z.of_nat (length B1)) 2); [discriminate|].
  destruct (Z.ltb_spec (Z.of_nat (length B2)) 2); [lia|].
  destruct ((byte_at B1 0 <? 9) || (byte_at B1 1 <? 23)); [discriminate|].
  destruct (Z.ltb_spec (Z.of_nat (length B1)) (context_header_size c)); [discriminate|].
  destruct (Z.ltb_spec (Z.of_nat (length B2)) (context_header_size c)); [lia|].
  destruct (4 <=? context_mode c); [discriminate|].
  destruct (Z.ltb_spec (Z.of_nat (length B1))
              (context_header_size c + Layout.headersize (context_layout c)));
    [discriminate|].
  destruct (Z.ltb_spec (Z.of_nat (length B2))
              (context_header_size c + Layout.headersize (context_layout c))); [lia|].
  auto.
Qed.

(** X9. Whether a buffer is accepted depends on its length and on the
    bytes before the sample region only: a buffer that agrees with an
    accepted one up to the start of the sample region and is at least
    that long is accepted too, with the same layout, header size and dive
    mode; bytes after the header are never a reason to reject. *)
Theorem X9_acceptance_by_header (B1 B2 : list byte) (p1 : cressi_goa_parser_t) :
  constructs B1 p1 ->
  fits_uint B2 ->
  firstn (Z.to_nat (samples_start p1)) B1 = firstn (Z.to_nat (samples_start p1)) B2 ->
  samples_start p1 <= Z.of_nat (length B2) ->
  constructs B2 (mk_parser (mk_base B2) (layout p1) (headersize p1) (version p1)
                           (divemode p1)).
Proof.
  intros C1 Hfit Hpre Hlen.
  pose proof (constructs_header_decoder _ _ C1) as Hdec.
  pose proof (header_decoder_prefix B1 B2 _ Hdec Hpre Hlen) as Hdec2.
  apply (header_decoder_constructs B2 _ (version p1) Hfit Hdec2).
Qed.

Lemma X9_acceptance_by_header_witness :
  constructs scuba_buffer scuba_parser /\
  constructs scuba_other_samples scuba_other_parser.
Proof.
  split; [by_construction|].
  apply (X9_acceptance_by_header scuba_buffer scuba_other_samples scuba_parser).
  - by_construction.
  - vm_compute. discriminate.
  - vm_compute. reflexivity.
  - vm_compute. discriminate.
Defined.

(** ** The loop body, case by case *)

Lemma uint_wrap_range z : 0 <= UInt.wrap z < UInt.modulus.
Proof. unfold UInt.wrap, UInt.modulus. apply Z.mod_pos_bound. lia. Qed.

Lemma decode_depth_word interval raw s :
  is_word raw -> Z.land raw 3 = DEPTH \/ Z.land raw 3 = DEPTH2 ->
  decode_state interval raw s
  = Sample.mk (UInt.add (Sample.time s) interval)
              (Z.land (Z.shiftr raw 2) 0x07FF)
              (Z.b2z (Z.testbit (Z.shiftr raw 2) 11))
              (Sample.gasmix_previous s) (Sample.temperature s)
              (Sample.have_temperature s) 1 /\
  synthetic_events interval raw s = [].
Proof.
  intros R T. unfold decode_state, synthetic_events.
  rewrite (sample_decode_depth _ interval raw s [] R T). now split.
Qed.

Lemma decode_time_word interval raw s :
  is_word raw -> Z.land raw 3 = TIME ->
  decode_state interval raw s
  = Sample.mk (if interval <? Z.shiftr raw 2
               then UInt.add (UInt.add (Sample.time s) interval)
                             (UInt.sub (Z.shiftr raw 2) interval)
               else UInt.add (Sample.time s) (Z.shiftr raw 2))
              0 (Sample.gasmix s) (Sample.gasmix_previous s) (Sample.temperature s)
              (Sample.have_temperature s) 1 /\
  synthetic_events interval raw s
  = if interval <? Z.shiftr raw 2
    then [SampleTime (UInt.mul (UInt.add (Sample.time s) interval) 1000);
          SampleDepth 0%float]
    else [].
Proof.
  intros R T. unfold decode_state, synthetic_events.
  rewrite (sample_decode_time _ interval raw s [] R T).
  destruct (interval <? Z.shiftr raw 2); now split.
Qed.

(** A word that is not a Temperature word: the synthetic events, then
    the record of the updated state. *)
Lemma step_split interval divemode raw s :
  is_word raw -> Z.land raw 3 <> TEMPERATURE ->
  step_events interval divemode raw s
  = synthetic_events interval raw s ++ record_events divemode (decode_state interval raw s) /\
  step_state interval divemode raw s = record_state divemode (decode_state interval raw s).
Proof.
  intros R T.
  destruct (step_completing interval divemode raw s R T)
    as (synthetic & s' & Hd & _ & _ & _ & _ & _ & _ & He & Hs).
  unfold synthetic_events, decode_state. rewrite Hd. now split.
Qed.

Lemma not_temperature_cases raw :
  Z.land raw 3 <> TEMPERATURE ->
  (Z.land raw 3 = DEPTH \/ Z.land raw 3 = DEPTH2) \/ Z.land raw 3 = TIME.
Proof. intros T. destruct (word_type_cases raw) as [H|[H|[H|H]]]; tauto. Qed.

(** ** The values the events carry *)

Lemma depth_bits_range value : 0 <= Z.land value 0x07FF <= 2047.
Proof.
  change (Z.land value 0x07FF) with (Z.land value (Z.ones 11)). rewrite Z.land_ones by lia.
  pose proof (Z.mod_pos_bound value (2 ^ 11) ltac:(lia)). change (2 ^ 11) with 2048 in *. lia.
Qed.

Lemma record_in_range divemode s :
  state_in_range s ->
  Forall event_in_range (record_events divemode s) /\
  state_in_range (record_state divemode s).
Proof.
  intros (Hd & Hg & Ht). split.
  - unfold record_events. repeat (apply Forall_app; split).
    + constructor; [apply uint_wrap_range|constructor].
    + destruct (Sample.have_temperature s =? 0); constructor; [|constructor].
      exists (Sample.temperature s). now split.
    + constructor; [|constructor]. exists (Sample.depth s). now split.
    + destruct (gas_change divemode s); constructor; [|constructor]. cbn. lia.
  - unfold state_in_range, record_state. cbn [Sample.depth Sample.gasmix Sample.temperature]. auto.
Qed.

Lemma step_in_range interval divemode raw s :
  is_word raw -> Sample.complete s = 0 -> state_in_range s ->
  Forall event_in_range (step_events interval divemode raw s) /\
  state_in_range (step_state interval divemode raw s) /\
  Sample.complete (step_state interval divemode raw s) = 0.
Proof.
  intros R Hc (Hd & Hg & Ht).
  destruct (Z.eq_dec (Z.land raw 3) TEMPERATURE) as [T|T].
  - destruct (step_temperature interval divemode raw s R T Hc) as [-> ->].
    split; [constructor|]. split; [|exact Hc].
    pose proof (payload_range raw R). unfold state_in_range, set_temperature. cbn [Sample.depth Sample.gasmix Sample.temperature]. lia.
  - destruct (step_split interval divemode raw s R T) as [-> ->].
    assert (state_in_range (decode_state interval raw s) /\
            Forall event_in_range (synthetic_events interval raw s)) as [Hs' Hsyn].
    { destruct (not_temperature_cases raw T) as [Ty|Ty].
      - destruct (decode_depth_word interval raw s R Ty) as [-> ->].
        split; [|constructor]. unfold state_in_range. cbn [Sample.depth Sample.gasmix Sample.temperature].
        pose proof (depth_bits_range (Z.shiftr raw 2)).
        pose proof (gasmix_bit_range (Z.shiftr raw 2)). lia.
      - destruct (decode_time_word interval raw s R Ty) as [-> ->].
        split; [unfold state_in_range; cbn [Sample.depth Sample.gasmix Sample.temperature]; lia|].
        destruct (interval <? Z.shiftr raw 2); [|constructor].
        constructor; [apply uint_wrap_range|]. constructor; [|constructor].
        exists 0. split; [lia|reflexivity]. }
    destruct (record_in_range divemode _ Hs') as [Hrec Hst].
    split; [apply Forall_app; now split|]. split; [exact Hst|reflexivity].
Qed.

Lemma walk_in_range interval divemode ws :
  Forall is_word ws ->
  forall s, Sample.complete s = 0 -> state_in_range s ->
            Forall event_in_range (walk_events interval divemode ws s).
Proof.
  intros Hws. induction Hws as [|raw ws R _ IH]; intros s Hc Hs; [constructor|].
  cbn [walk_events].
  destruct (step_in_range interval divemode raw s R Hc Hs) as (He & Hs' & Hc').
  apply Forall_app. split; [exact He|]. now apply IH.
Qed.

(** X10. Every event of the walk of a successfully constructed context
    carries a value inside the field it was cut from: a Time event a
    32-bit value, a Depth event d/10 with d at most 2047 (11 bits), a
    Temperature event v/10 with v at most 16383 (14 bits, never
    negative), a gas-mix event the index 0 or 1. *)
Theorem X10_event_ranges (B : list byte) (p : cressi_goa_parser_t) :
  constructs B p ->
  exists events,
    samples_events p = Returns (DC_STATUS_SUCCESS, events) /\
    Forall event_in_range events.
Proof.
  intros C. eexists. split; [apply (samples_events_walk B p C)|].
  apply walk_in_range; [apply words_are_words|reflexivity|].
  unfold state_in_range. cbn. lia.
Qed.

Lemma X10_event_ranges_witness :
  constructs scuba_buffer scuba_parser /\
  exists events,
    samples_events scuba_parser = Returns (DC_STATUS_SUCCESS, events) /\
    Forall event_in_range events.
Proof.
  split; [by_construction|].
  apply (X10_event_ranges scuba_buffer scuba_parser). by_construction.
Defined.

(** ** Gas-mix events *)

Lemma gasmix_indices_app e1 e2 :
  gasmix_indices (e1 ++ e2) = gasmix_indices e1 ++ gasmix_indices e2.
Proof. apply flat_map_app. Qed.

Lemma gasmix_indices_none events :
  existsb is_gasmix_event events = false -> gasmix_indices events = [].
Proof.
  induction events as [|e events IH]; [reflexivity|].
  cbn [existsb]. intros H. apply orb_false_iff in H as [He Hrest].
  destruct e; try discriminate He; cbn; now apply IH.
Qed.

Lemma gasmix_indices_record divemode s :
  gasmix_indices (record_events divemode s)
  = if gas_change divemode s then [Sample.gasmix s] else [].
Proof.
  unfold record_events.
  destruct (Sample.have_temperature s =? 0), (gas_change divemode s); reflexivity.
Qed.

Lemma walk_gasmix_chain interval divemode ws :
  Forall is_word ws ->
  forall s, Sample.complete s = 0 ->
            chain (fun previous index => index <> previous) (Sample.gasmix_previous s)
                  (gasmix_indices (walk_events interval divemode ws s)).
Proof.
  intros Hws. induction Hws as [|raw ws R _ IH]; intros s Hc; [exact I|].
  cbn [walk_events]. rewrite gasmix_indices_app.
  destruct (Z.eq_dec (Z.land raw 3) TEMPERATURE) as [T|T].
  - destruct (step_temperature interval divemode raw s R T Hc) as [-> ->].
    apply (IH (set_temperature s (Z.shiftr raw 2)) Hc).
  - destruct (step_completing interval divemode raw s R T)
      as (synthetic & s' & _ & _ & Hsyn & Hp & _ & _ & _ & -> & ->).
    rewrite gasmix_indices_app, (gasmix_indices_none _ Hsyn), gasmix_indices_record.
    cbn [app]. specialize (IH (record_state divemode s') eq_refl).
    unfold record_state in IH at 1. cbn [Sample.gasmix_previous] in IH.
    destruct (gas_change divemode s') eqn:G.
    + cbn [app chain]. split; [|exact IH].
      unfold gas_change in G. apply andb_true_iff in G as [_ G].
      apply negb_true_iff, Z.eqb_neq in G. now rewrite <- Hp.
    + cbn [app]. now rewrite <- Hp.
Qed.

(** X11. In the walk of a successfully constructed context no gas-mix
    event repeats the index of the gas-mix event before it, and the first
    one differs from the "no previous mix" value: a gas mix is reported
    when it changes, not with every record. *)
Theorem X11_gasmix_events_change (B : list byte) (p : cressi_goa_parser_t) :
  constructs B p ->
  exists events,
    samples_events p = Returns (DC_STATUS_SUCCESS, events) /\
    chain (fun previous index => index <> previous) 0xFFFFFFFF (gasmix_indices events).
Proof.
  intros C. eexists. split; [apply (samples_events_walk B p C)|].
  apply (walk_gasmix_chain _ _ _ (words_are_words _) Sample.initial eq_refl).
Qed.

Lemma X11_gasmix_events_change_witness :
  constructs gas_switch_buffer gas_switch_parser /\
  exists events,
    samples_events gas_switch_parser = Returns (DC_STATUS_SUCCESS, events) /\
    gasmix_indices events = [0; 1; 0] /\
    count_events is_depth_event events = 5%nat.
Proof.
  split; [by_construction|].
  destruct (X11_gasmix_events_change gas_switch_buffer gas_switch_parser
                                     ltac:(by_construction)) as (events & He & _).
  exists events. split; [exact He|].
  vm_compute in He. injection He as <-. split; reflexivity.
Defined.

(** ** Elapsed time *)

Lemma time_stamps_app e1 e2 : time_stamps (e1 ++ e2) = time_stamps e1 ++ time_stamps e2.
Proof. apply flat_map_app. Qed.

Lemma time_stamps_record divemode s :
  time_stamps (record_events divemode s) = [UInt.mul (Sample.time s) 1000].
Proof.
  unfold record_events.
  destruct (Sample.have_temperature s =? 0), (gas_change divemode s); reflexivity.
Qed.

Lemma duration_range divemode raw :
  is_word raw -> 0 <= duration (sample_interval divemode) raw <= 16383.
Proof.
  intros R. pose proof (payload_range raw R). pose proof (sample_interval_range divemode).
  unfold duration.
  destruct ((Z.land raw 3 =? DEPTH) || (Z.land raw 3 =? DEPTH2)); [lia|].
  destruct (Z.land raw 3 =? TIME); lia.
Qed.

Lemma duration_depth interval raw :
  Z.land raw 3 = DEPTH \/ Z.land raw 3 = DEPTH2 -> duration interval raw = interval.
Proof. unfold duration. intros [-> | ->]; reflexivity. Qed.

Lemma duration_time interval raw : Z.land raw 3 = TIME -> duration interval raw = Z.shiftr raw 2.
Proof. unfold duration. intros ->. reflexivity. Qed.

Lemma duration_temperature interval raw : Z.land raw 3 = TEMPERATURE -> duration interval raw = 0.
Proof. unfold duration. intros ->. reflexivity. Qed.

(** The update by a word adds its duration to the accumulator, in
    [unsigned int] arithmetic. *)
Lemma decode_state_time divemode raw s :
  is_word raw -> Z.land raw 3 <> TEMPERATURE ->
  Sample.time (decode_state (sample_interval divemode) raw s)
  = UInt.wrap (Sample.time s + duration (sample_interval divemode) raw).
Proof.
  intros R T. pose proof (payload_range raw R) as Rv.
  pose proof (sample_interval_range divemode) as Ri.
  destruct (not_temperature_cases raw T) as [Ty|Ty].
  - destruct (decode_depth_word (sample_interval divemode) raw s R Ty) as [-> _].
    now rewrite (duration_depth _ _ Ty).
  - destruct (decode_time_word (sample_interval divemode) raw s R Ty) as [-> _].
    rewrite (duration_time _ _ Ty). cbn [Sample.time].
    destruct (sample_interval divemode <? Z.shiftr raw 2); [|reflexivity].
    unfold UInt.add, UInt.sub, UInt.wrap.
    rewrite <- Zplus_mod. f_equal. lia.
Qed.

Lemma total_duration_cons interval raw ws :
  total_duration interval (raw :: ws) = duration interval raw + total_duration interval ws.
Proof. reflexivity. Qed.





Lemma total_duration_nonneg divemode ws :
  Forall is_word ws -> 0 <= total_duration (sample_interval divemode) ws.
Proof.
  intros Hws. induction Hws as [|raw ws R _ IH]; [reflexivity|].
  rewrite total_duration_cons. pose proof (duration_range divemode raw R). lia.
Qed.

Lemma walk_stamps_chain divemode ws :
  Forall is_word ws ->
  forall s, Sample.complete s = 0 ->
            0 <= Sample.time s ->
            (Sample.time s + total_duration (sample_interval divemode) ws) * 1000
            < UInt.modulus ->
            chain Z.le (Sample.time s * 1000)
                  (time_stamps (walk_events (sample_interval divemode) divemode ws s)).
Proof.
  intros Hws. induction Hws as [|raw ws R Hws IH]; intros s Hc Ht Hsmall; [exact I|].
  cbn [walk_events]. rewrite time_stamps_app. rewrite total_duration_cons in Hsmall.
  pose proof (total_duration_nonneg divemode ws Hws) as Htot.
  pose proof (duration_range divemode raw R) as Hd.
  unfold UInt.modulus in Hsmall.
  destruct (Z.eq_dec (Z.land raw 3) TEMPERATURE) as [T|T].
  - destruct (step_temperature (sample_interval divemode) divemode raw s R T Hc) as [-> ->].
    rewrite (duration_temperature _ _ T) in Hsmall.
    apply (IH (set_temperature s (Z.shiftr raw 2)) Hc Ht). exact Hsmall.
  - destruct (step_split (sample_interval divemode) divemode raw s R T) as [-> ->].
    pose proof (decode_state_time divemode raw s R T) as Htime.
    rewrite UIntFacts.wrap_small in Htime by (unfold UInt.modulus; lia).
    rewrite time_stamps_app, time_stamps_record, Htime.
    rewrite UIntFacts.mul_small by (unfold UInt.modulus; lia).
    specialize (IH (record_state divemode (decode_state (sample_interval divemode) raw s))
                   eq_refl).
    cbn [record_state Sample.time] in IH. rewrite Htime in IH.
    specialize (IH ltac:(lia) ltac:(unfold UInt.modulus; lia)).
    destruct (not_temperature_cases raw T) as [Ty|Ty].
    + destruct (decode_depth_word (sample_interval divemode) raw s R Ty) as [_ ->].
      cbn [time_stamps flat_map app chain]. split; [lia|exact IH].
    + destruct (decode_time_word (sample_interval divemode) raw s R Ty) as [_ ->].
      rewrite (duration_time _ _ Ty) in *.
      pose proof (sample_interval_range divemode) as Ri.
      destruct (Z.ltb_spec (sample_interval divemode) (Z.shiftr raw 2)) as [Hlong|Hshort].
      * cbn [time_stamps flat_map app chain].
        rewrite UIntFacts.add_small by (unfold UInt.modulus; lia).
        rewrite UIntFacts.mul_small by (unfold UInt.modulus; lia).
        repeat split; try lia. exact IH.
      * cbn [time_stamps flat_map app chain]. split; [lia|exact IH].
Qed.

(** X13. As long as 1000 times the total duration of the sample words
    fits 32 bits, the Time events of the walk never go back: each is at
    least the one before it, starting from 0.  (Beyond that the product
    wraps around.) *)
Theorem X13_time_never_goes_back (B : list byte) (p : cressi_goa_parser_t) :
  constructs B p ->
  total_duration (sample_interval (divemode p)) (sample_words B p) * 1000 < UInt.modulus ->
  exists events,
    samples_events p = Returns (DC_STATUS_SUCCESS, events) /\
    chain Z.le 0 (time_stamps events).
Proof.
  intros C Hsmall. eexists. split; [apply (samples_events_walk B p C)|].
  apply (walk_stamps_chain (divemode p) _ (words_are_words _) Sample.initial eq_refl);
    cbn [Sample.time Sample.initial]; [lia|exact Hsmall].
Qed.

Lemma X13_time_never_goes_back_witness :
  constructs scuba_buffer scuba_parser /\
  exists events,
    samples_events scuba_parser = Returns (DC_STATUS_SUCCESS, events) /\
    chain Z.le 0 (time_stamps events) /\
    time_stamps events = [5000; 15000; 20000].
Proof.
  split; [by_construction|].
  destruct (X13_time_never_goes_back scuba_buffer scuba_parser ltac:(by_construction)
                                     ltac:(vm_compute; reflexivity))
    as (events & He & Hchain).
  exists events. repeat split; auto.
  vm_compute in He. now injection He as <-.
Defined.

(** ** Pending temperatures *)

(** X14. A Temperature word directly followed by another Temperature
    word is lost: the walk makes the same calls as on the region without
    the first of the two, since the pending value is overwritten before
    any record reports it. *)
Theorem X14_temperature_overwritten (B : list byte) (p : cressi_goa_parser_t) :
  constructs B p ->
  let dm := divemode p in
  let interval := sample_interval dm in
  forall before first second after,
    sample_words B p = before ++ first :: second :: after ->
    Z.land first 3 = TEMPERATURE ->
    Z.land second 3 = TEMPERATURE ->
    samples_events p
    = Returns (DC_STATUS_SUCCESS,
               walk_events interval dm (before ++ second :: after) Sample.initial).
Proof.
  intros C dm interval before first second after Hsplit T1 T2.
  pose proof (words_are_words (skipn (Z.to_nat (samples_start p)) B)) as Hw.
  fold (sample_words B p) in Hw. rewrite Hsplit in Hw.
  apply Forall_app in Hw as [Wb Wr].
  inversion Wr as [|? ? R1 Wr']; subst. inversion Wr' as [|? ? R2 Wa]; subst.
  rewrite (samples_events_walk B p C). fold dm. fold interval. rewrite Hsplit.
  rewrite !walk_events_app. do 2 f_equal.
  pose proof (walk_state_idle interval dm before Wb Sample.initial eq_refl) as Hc.
  set (s := walk_state interval dm before Sample.initial) in *.
  cbn [walk_events].
  destruct (step_temperature interval dm first s R1 T1 Hc) as [-> ->].
  destruct (step_temperature interval dm second (set_temperature s (Z.shiftr first 2))
                             R2 T2 Hc) as [-> ->].
  destruct (step_temperature interval dm second s R2 T2 Hc) as [-> ->].
  reflexivity.
Qed.

Lemma X14_temperature_overwritten_witness :
  constructs two_temperatures_buffer two_temperatures_parser /\
  samples_events two_temperatures_parser
  = Returns (DC_STATUS_SUCCESS,
             [SampleTime 5000; SampleTemperature 2%float; SampleDepth 10%float]).
Proof.
  split; [by_construction|].
  apply (X14_temperature_overwritten two_temperatures_buffer two_temperatures_parser
                                     ltac:(by_construction) [] 43 83 [400]);
    reflexivity.
Defined.

(** ** Counting events *)

Lemma count_events_app f e1 e2 :
  count_events f (e1 ++ e2) = (count_events f e1 + count_events f e2)%nat.
Proof. unfold count_events. now rewrite filter_app, length_app. Qed.

Lemma count_record divemode s :
  count_events is_time_event (record_events divemode s) = 1%nat /\
  count_events is_depth_event (record_events divemode s) = 1%nat /\
  count_events is_temperature_event (record_events divemode s) = pending s.
Proof.
  unfold record_events, pending.
  destruct (Sample.have_temperature s =? 0), (gas_change divemode s); repeat split.
Qed.

Lemma count_synthetic interval raw s :
  is_word raw -> Z.land raw 3 <> TEMPERATURE ->
  count_events is_time_event (synthetic_events interval raw s)
  = count_events is_depth_event (synthetic_events interval raw s) /\
  count_events is_temperature_event (synthetic_events interval raw s) = 0%nat /\
  Sample.have_temperature (decode_state interval raw s) = Sample.have_temperature s.
Proof.
  intros R T. destruct (not_temperature_cases raw T) as [Ty|Ty].
  - destruct (decode_depth_word interval raw s R Ty) as [-> ->]. repeat split.
  - destruct (decode_time_word interval raw s R Ty) as [-> ->].
    destruct (interval <? Z.shiftr raw 2); repeat split.
Qed.

Lemma walk_counts interval divemode ws :
  Forall is_word ws ->
  forall s, Sample.complete s = 0 ->
            let events := walk_events interval divemode ws s in
            count_events is_time_event events = count_events is_depth_event events /\
            (count_events is_temperature_event events <= temperature_words ws + pending s)%nat.
Proof.
  intros Hws. induction Hws as [|raw ws R _ IH]; intros s Hc; [cbn; split; lia|].
  cbn [walk_events]. cbv zeta. rewrite !count_events_app.
  unfold temperature_words. cbn [filter]. unfold is_temperature_word at 1.
  destruct (Z.eqb_spec (Z.land raw 3) TEMPERATURE) as [T|T].
  - destruct (step_temperature interval divemode raw s R T Hc) as [-> ->].
    destruct (IH (set_temperature s (Z.shiftr raw 2)) Hc) as [IH1 IH2].
    unfold temperature_words in IH2.
    change (pending (set_temperature s (Z.shiftr raw 2))) with 1%nat in IH2.
    cbn [count_events filter length Nat.add]. split; [exact IH1|]. lia.
  - destruct (step_split interval divemode raw s R T) as [-> ->].
    rewrite !count_events_app.
    destruct (count_record divemode (decode_state interval raw s)) as (-> & -> & ->).
    destruct (count_synthetic interval raw s R T) as (-> & -> & Hhave).
    destruct (IH (record_state divemode (decode_state interval raw s)) eq_refl)
      as [IH1 IH2].
    unfold temperature_words in IH2.
    change (pending (record_state divemode (decode_state interval raw s))) with 0%nat in IH2.
    unfold pending at 1. rewrite Hhave. fold (pending s).
    split; lia.
Qed.

(** X15. In the walk of a successfully constructed context every Time
    event has its Depth event: the two occur equally often, and there are
    no more Temperature events than Temperature words in the sample
    region. *)
Theorem X15_event_counts (B : list byte) (p : cressi_goa_parser_t) :
  constructs B p ->
  exists events,
    samples_events p = Returns (DC_STATUS_SUCCESS, events) /\
    count_events is_time_event events = count_events is_depth_event events /\
    (count_events is_temperature_event events <= temperature_words (sample_words B p))%nat.
Proof.
  intros C. eexists. split; [apply (samples_events_walk B p C)|].
  destruct (walk_counts (sample_interval (divemode p)) (divemode p) _
                        (words_are_words (skipn (Z.to_nat (samples_start p)) B))
                        Sample.initial eq_refl) as [H1 H2].
  split; [exact H1|]. cbn [pending Sample.initial Sample.have_temperature Z.eqb] in H2.
  unfold sample_words. lia.
Qed.

Lemma X15_event_counts_witness :
  constructs two_temperatures_buffer two_temperatures_parser /\
  temperature_words (sample_words two_temperatures_buffer two_temperatures_parser) = 2%nat /\
  exists events,
    samples_events two_temperatures_parser = Returns (DC_STATUS_SUCCESS, events) /\
    count_events is_time_event events = count_events is_depth_event events /\
    (count_events is_temperature_event events <= 2)%nat.
Proof.
  split; [by_construction|]. split; [reflexivity|].
  apply (X15_event_counts two_temperatures_buffer two_temperatures_parser). by_construction.
Defined.

(** ** The GasMix query without a gas-mix table *)

(** X16. The GasMix case does not test the gasmix offset against the
    undefined sentinel: on a context whose layout has no gas-mix table
    (Freedive, Gauge) the index arithmetic on the sentinel wraps around,
    and a GasMix[index] query with a non-null pointer reads the byte at
    2 * index of the mode-specific region and succeeds with it as oxygen
    percentage, instead of failing with Unsupported. *)
Theorem X16_gasmix_without_table (B : list byte) (p : cressi_goa_parser_t) (index : Z) :
  constructs B p ->
  Layout.gasmix (layout p) = UNDEFINED ->
  0 <= index ->
  headersize p + 2 * index < Z.of_nat (length B) ->
  cressi_goa_parser_get_field p DC_FIELD_GASMIX index true
  = Returns (DC_STATUS_SUCCESS,
             Some (GasmixValue (gasmix_of_percentage (byte_at B (headersize p + 2 * index))))).
Proof.
  intros C Hundef H0 Hin. apply constructs_well_formed in C.
  pose proof (wf_header_range _ _ C) as Hhs.
  pose proof (wf_fits _ _ C) as Hfit. unfold UInt.max in Hfit.
  rewrite (get_field_unfold B p _ index true C). cbv zeta. rewrite Hundef.
  assert (UInt.add (UInt.add UNDEFINED (UInt.mul 2 index)) 1 = 2 * index) as ->.
  { rewrite (UIntFacts.mul_small 2 index) by (unfold UInt.modulus; lia).
    unfold UInt.add, UInt.wrap, UNDEFINED, UInt.modulus.
    rewrite Zplus_mod_idemp_l.
    replace (0xFFFFFFFF + 2 * index + 1) with (2 * index + 1 * 2 ^ 32) by lia.
    rewrite Z_mod_plus_full. apply Z.mod_small. lia. }
  rewrite (read_byte B p _ C) by lia. reflexivity.
Qed.

Lemma X16_gasmix_without_table_witness :
  constructs freedive_buffer freedive_parser /\
  cressi_goa_parser_get_field freedive_parser DC_FIELD_GASMIX 0 true
  = Returns (DC_STATUS_SUCCESS, Some (GasmixValue (gasmix_of_percentage 50))).
Proof.
  split; [by_construction|].
  apply (X16_gasmix_without_table freedive_buffer freedive_parser 0).
  - by_construction.
  - reflexivity.
  - lia.
  - vm_compute. reflexivity.
Defined.
